(** * mtools.util.logfile: the [LogFile] wrapper, embedded and verified

    The development follows [src/mtools/util/logfile.py].  A Python 2 [str]
    is a list of characters, byte offsets and step sizes are integers in [Z],
    the file object is a record holding its content and its position, and the
    methods of [LogFile] are computations in a state-and-exception monad over
    the object's fields. *)

From Stdlib Require Import List ZArith Lia Bool Ascii String.
Import ListNotations.
Open Scope Z_scope.

(** ** Python strings *)

Definition str := list ascii.

Definition lit (s : string) : str := list_ascii_of_string s.

Arguments lit : simpl never.

Definition nl : ascii := "010"%char.

Definition is_nl (c : ascii) : bool := Ascii.eqb c nl.

Definition len (s : str) : Z := Z.of_nat (List.length s).

Fixpoint str_eqb (a b : str) : bool :=
  match a, b with
  | [], [] => true
  | x :: a', y :: b' => Ascii.eqb x y && str_eqb a' b'
  | _, _ => false
  end.

(** [s.startswith(p)] *)
Fixpoint startswith (p s : str) : bool :=
  match p, s with
  | [], _ => true
  | x :: p', y :: s' => Ascii.eqb x y && startswith p' s'
  | _ :: _, [] => false
  end.

(** [p in s] for strings: [p] occurs as a contiguous piece of [s]. *)
Fixpoint contains (p s : str) : bool :=
  startswith p s ||
  match s with
  | [] => false
  | _ :: s' => contains p s'
  end.

(** [s.rfind('\n')]: the highest index holding a line break, or [-1]. *)
Fixpoint rfind_from (i : Z) (s : str) (found : Z) : Z :=
  match s with
  | [] => found
  | c :: s' => rfind_from (i + 1) s' (if is_nl c then i else found)
  end.

Definition rfind_nl (s : str) : Z := rfind_from 0 s (-1).

(** [s[:n]], with Python's reading of a negative bound. *)
Definition slice_to (s : str) (n : Z) : str :=
  if n <? 0 then firstn (Z.to_nat (len s + n)) s
  else firstn (Z.to_nat n) s.

(** What one [readline()] returns on the text [s]: everything up to and
    including the first line break, or all of [s] when it has none. *)
Fixpoint take_line (s : str) : str :=
  match s with
  | [] => []
  | c :: s' => if is_nl c then [c] else c :: take_line s'
  end.

(** The lines of [s] as file iteration and [readlines()] deliver them, each
    with its line break, the last one possibly without. *)
Fixpoint lines (s : str) : list str :=
  match s with
  | [] => []
  | c :: s' =>
      if is_nl c then [c] :: lines s'
      else match lines s' with
           | [] => [[c]]
           | l :: ls => (c :: l) :: ls
           end
  end.

Definition is_digit (c : ascii) : bool :=
  let n := N_of_ascii c in (48 <=? n)%N && (n <=? 57)%N.

Fixpoint take_digits (s : str) : str :=
  match s with
  | c :: s' => if is_digit c then c :: take_digits s' else []
  | [] => []
  end.

(** A match of the pattern [\d\.\d\.\d+] anchored at the head of [s]. *)
Definition match_version (s : str) : option str :=
  match s with
  | a :: p :: b :: q :: c :: rest =>
      if is_digit a && Ascii.eqb p "."%char && is_digit b
         && Ascii.eqb q "."%char && is_digit c
      then Some (a :: p :: b :: q :: c :: take_digits rest)
      else None
  | _ => None
  end.

(** [re.search(r'(\d\.\d\.\d+)', s)]: group 1 of the leftmost match. *)
Fixpoint re_search_version (s : str) : option str :=
  match match_version s with
  | Some v => Some v
  | None => match s with
            | [] => None
            | _ :: s' => re_search_version s'
            end
  end.

(** ** datetime

    A naive [datetime.datetime]: seven integer fields, ordered
    lexicographically with the year first. *)

Record datetime := mkdt {
  year : Z; month : Z; day : Z;
  hour : Z; minute : Z; second : Z; microsecond : Z
}.

Definition lex (c d : comparison) : comparison :=
  match c with Eq => d | _ => c end.

Definition dt_compare (a b : datetime) : comparison :=
  lex (year a ?= year b)
  (lex (month a ?= month b)
  (lex (day a ?= day b)
  (lex (hour a ?= hour b)
  (lex (minute a ?= minute b)
  (lex (second a ?= second b)
       (microsecond a ?= microsecond b)))))).

(** [a < b] and [a >= b] on datetimes *)
Definition dt_ltb (a b : datetime) : bool :=
  match dt_compare a b with Lt => true | _ => false end.

Definition dt_geb (a b : datetime) : bool := negb (dt_ltb a b).

Definition dt_leb (a b : datetime) : bool :=
  match dt_compare a b with Gt => false | _ => true end.

Definition is_leap (y : Z) : bool :=
  ((y mod 4 =? 0) && negb (y mod 100 =? 0)) || (y mod 400 =? 0).

Definition days_in_month (y m : Z) : Z :=
  if m =? 2 then (if is_leap y then 29 else 28)
  else if (m =? 4) || (m =? 6) || (m =? 9) || (m =? 11) then 30
  else 31.

(** [d.replace(year=y)]: the constructor checks the year against
    [MINYEAR..MAXYEAR] and the day against the month of the new year, and
    raises [ValueError] otherwise ([None] here). *)
Definition replace_year (d : datetime) (y : Z) : option datetime :=
  if (1 <=? y) && (y <=? 9999) && (day d <=? days_in_month y (month d))
  then Some (mkdt y (month d) (day d) (hour d) (minute d) (second d)
                  (microsecond d))
  else None.

(** ** LogLine

    [mtools.util.logline.LogLine] is not part of this file: a [LogLine]
    keeps the raw line, and its [datetime] property is whatever the line
    parser finds, taken as a parameter [parse_dt] below.  A [LogLine]
    object is always true in a boolean context. *)

Record LogLine := mkLogLine { line_str : str }.

(** ** The file object

    [name], the bytes of the file, the current offset, and whether the
    descriptor can seek ([seek] and [tell] raise [IOError] on a pipe or a
    terminal).  Iteration is modelled at the logical position: every place
    where the source stops iterating early is followed by an absolute
    seek. *)

Record FileHandle := mkFH {
  name : str;
  content : str;
  pos : Z;
  seekable : bool
}.

Definition set_pos (fh : FileHandle) (p : Z) : FileHandle :=
  mkFH (name fh) (content fh) p (seekable fh).

Definition size (fh : FileHandle) : Z := len (content fh).

(** The bytes from the current position to the end of the file. *)
Definition rest (fh : FileHandle) : str :=
  skipn (Z.to_nat (pos fh)) (content fh).

Inductive exn :=
| IOError | TypeError | ValueError | StopIteration | AttributeError.

(** ** The LogFile object

    The six cache fields of [__init__], the file object and the [from_stdin]
    flag.  [bounds_scans] and [lines_scans] are ghost counters: they count
    the invocations of [_calculate_bounds] and [_iterate_lines] so that a
    repeated scan can be observed; no method reads them. *)

Record LogFile := mkLF {
  filehandle : FileHandle;
  from_stdin : bool;
  _start : option datetime;
  _end : option datetime;
  _filesize : option Z;
  _num_lines : option Z;
  _restarts : option (list (str * LogLine));
  _binary : option str;
  bounds_scans : nat;
  lines_scans : nat
}.

Definition __init__ (fh : FileHandle) : LogFile :=
  mkLF fh (str_eqb (name fh) (lit "<stdin>")) None None None None None None
       0%nat 0%nat.

Definition with_fh (s : LogFile) (fh : FileHandle) : LogFile :=
  mkLF fh (from_stdin s) (_start s) (_end s) (_filesize s) (_num_lines s)
       (_restarts s) (_binary s) (bounds_scans s) (lines_scans s).

(** ** State and exceptions

    A method either returns a value, raises a Python exception, or (for the
    fuel-bounded [while] loops only) runs out of fuel; the first two carry
    the object as the call left it. *)

Inductive res (A : Type) : Type :=
| Ok (a : A) (s : LogFile)
| Raise (e : exn) (s : LogFile)
| OutOfFuel.

Arguments Ok {A} a s.
Arguments Raise {A} e s.
Arguments OutOfFuel {A}.

Definition M (A : Type) : Type := LogFile -> res A.

Definition ret {A} (a : A) : M A := fun s => Ok a s.

Definition bind {A B} (m : M A) (k : A -> M B) : M B :=
  fun s => match m s with
           | Ok a s' => k a s'
           | Raise e s' => Raise e s'
           | OutOfFuel => OutOfFuel
           end.

Definition raise {A} (e : exn) : M A := fun s => Raise e s.

Notation "x <- m ;; k" := (bind m (fun x => k))
  (at level 61, m at next level, right associativity).
Notation "m ;; k" := (bind m (fun _ => k))
  (at level 61, right associativity).

Definition get {A} (f : LogFile -> A) : M A := fun s => Ok (f s) s.

Definition modify (f : LogFile -> LogFile) : M unit := fun s => Ok tt (f s).

(** *** Methods of the file object *)

(** [seek(off, whence)]: [IOError] on a handle that cannot seek, and on a
    negative target offset. *)
Definition seek (off whence : Z) : M unit := fun s =>
  let fh := filehandle s in
  if negb (seekable fh) then Raise IOError s
  else
    let base := if whence =? 0 then 0
                else if whence =? 1 then pos fh else size fh in
    if base + off <? 0 then Raise IOError s
    else Ok tt (with_fh s (set_pos fh (base + off))).

Definition tell : M Z := fun s =>
  let fh := filehandle s in
  if negb (seekable fh) then Raise IOError s else Ok (pos fh) s.

(** The iterator or a read hands over [chunk]: the position moves past it. *)
Definition consume (chunk : str) : M unit :=
  modify (fun s => with_fh s (set_pos (filehandle s)
                                      (pos (filehandle s) + len chunk))).

Definition read (n : Z) : M str :=
  buff <- get (fun s => firstn (Z.to_nat n) (rest (filehandle s)));;
  consume buff;; ret buff.

Definition readline : M str :=
  line <- get (fun s => take_line (rest (filehandle s)));;
  consume line;; ret line.

(** [next()]: the next line, or [StopIteration] at the end of the input. *)
Definition next : M str :=
  line <- get (fun s => take_line (rest (filehandle s)));;
  match line with
  | [] => raise StopIteration
  | _ => consume line;; ret line
  end.

Definition readlines : M (list str) :=
  buff <- get (fun s => rest (filehandle s));;
  consume buff;; ret (lines buff).

(** The lines a [for line in self.filehandle] loop is going to see. *)
Definition pending_lines : M (list str) :=
  get (fun s => lines (rest (filehandle s))).

(** Truth value of a cached integer: [None] and [0] are false. *)
Definition truthy_int (v : option Z) : bool :=
  match v with Some n => negb (n =? 0) | None => false end.

(** Truth value of a cached object that is [None] or always true. *)
Definition truthy {A} (v : option A) : bool :=
  match v with Some _ => true | None => false end.

(** *** Field updates *)

Definition set_start (v : option datetime) : M unit :=
  modify (fun s => mkLF (filehandle s) (from_stdin s) v (_end s) (_filesize s)
            (_num_lines s) (_restarts s) (_binary s) (bounds_scans s)
            (lines_scans s)).

Definition set_end (v : option datetime) : M unit :=
  modify (fun s => mkLF (filehandle s) (from_stdin s) (_start s) v
            (_filesize s) (_num_lines s) (_restarts s) (_binary s)
            (bounds_scans s) (lines_scans s)).

Definition set_filesize (v : option Z) : M unit :=
  modify (fun s => mkLF (filehandle s) (from_stdin s) (_start s) (_end s) v
            (_num_lines s) (_restarts s) (_binary s) (bounds_scans s)
            (lines_scans s)).

Definition set_num_lines (v : option Z) : M unit :=
  modify (fun s => mkLF (filehandle s) (from_stdin s) (_start s) (_end s)
            (_filesize s) v (_restarts s) (_binary s) (bounds_scans s)
            (lines_scans s)).

Definition set_restarts (v : option (list (str * LogLine))) : M unit :=
  modify (fun s => mkLF (filehandle s) (from_stdin s) (_start s) (_end s)
            (_filesize s) (_num_lines s) v (_binary s) (bounds_scans s)
            (lines_scans s)).

Definition set_binary (v : option str) : M unit :=
  modify (fun s => mkLF (filehandle s) (from_stdin s) (_start s) (_end s)
            (_filesize s) (_num_lines s) (_restarts s) v (bounds_scans s)
            (lines_scans s)).

Definition tick_bounds : M unit :=
  modify (fun s => mkLF (filehandle s) (from_stdin s) (_start s) (_end s)
            (_filesize s) (_num_lines s) (_restarts s) (_binary s)
            (S (bounds_scans s)) (lines_scans s)).

Definition tick_lines : M unit :=
  modify (fun s => mkLF (filehandle s) (from_stdin s) (_start s) (_end s)
            (_filesize s) (_num_lines s) (_restarts s) (_binary s)
            (bounds_scans s) (S (lines_scans s))).

(** [self._restarts.append(r)]; [append] on [None] is an [AttributeError],
    which cannot arise because [_iterate_lines] has just stored a list. *)
Definition append_restart (r : str * LogLine) : M unit := fun s =>
  match _restarts s with
  | Some rs => set_restarts (Some (rs ++ [r])) s
  | None => Raise AttributeError s
  end.

(** ** The methods of LogFile *)

Section Methods.

(** The line parser behind [LogLine(line).datetime]. *)
Variable parse_dt : str -> option datetime.

Definition datetime_of (ll : LogLine) : option datetime :=
  parse_dt (line_str ll).

(** *** [_iterate_lines] *)

(** The part of the loop body after the kind of binary has been chosen. *)
Definition record_version (line : str) : M unit :=
  match re_search_version line with
  | Some version => append_restart (version, mkLogLine line)
  | None => ret tt
  end.

(** The body of the [for] loop on one line. *)
Definition iterate_body (line : str) : M unit :=
  if contains (lit "version") line then
    if contains (lit "mongos") line || contains (lit "MongoS") line then
      set_binary (Some (lit "mongos"));; record_version line
    else if contains (lit "db version v") line then
      set_binary (Some (lit "mongod"));; record_version line
    else ret tt
  else ret tt.

(** [for l, line in enumerate(self.filehandle)]: [i] is the index the next
    line gets, [l] the value the loop variable holds so far; the result is
    [l] after the loop. *)
Fixpoint iterate_loop (i : Z) (ls : list str) (l : Z) : M Z :=
  match ls with
  | [] => ret l
  | line :: ls' =>
      consume line;;
      iterate_body line;;
      iterate_loop (i + 1) ls' i
  end.

Definition _iterate_lines : M unit :=
  tick_lines;;
  set_num_lines (Some 0);;
  set_restarts (Some []);;
  ls <- pending_lines;;
  l <- iterate_loop 0 ls 0;;
  set_num_lines (Some (l + 1));;
  seek 0 0.

(** *** [_calculate_bounds] *)

(** The first loop: stop at the first line that has a datetime. *)
Fixpoint start_loop (ls : list str) : M unit :=
  match ls with
  | [] => ret tt
  | line :: ls' =>
      consume line;;
      match datetime_of (mkLogLine line) with
      | Some date => set_start (Some date)
      | None => start_loop ls'
      end
  end.

(** The second loop, over the reversed list that [readlines()] returned. *)
Fixpoint end_loop (ls : list str) : M unit :=
  match ls with
  | [] => ret tt
  | line :: ls' =>
      match datetime_of (mkLogLine line) with
      | Some date => set_end (Some date)
      | None => end_loop ls'
      end
  end.

(** [self._end < self._start], then the replacement of the year.  Python 2
    orders [None] against [None] (not less), and a datetime refuses the
    comparison with [None] by raising [TypeError]. *)
Definition rollover : M unit := fun s =>
  match _end s, _start s with
  | None, None => Ok tt s
  | Some e, Some st =>
      if dt_ltb e st then
        match replace_year st (year st - 1) with
        | Some st' => set_start (Some st') s
        | None => Raise ValueError s
        end
      else Ok tt s
  | _, _ => Raise TypeError s
  end.

Definition _calculate_bounds : M bool :=
  tick_bounds;;
  stdin <- get from_stdin;;
  if stdin then ret false
  else
    ls <- pending_lines;;
    start_loop ls;;
    seek 0 2;;
    sz <- tell;;
    set_filesize (Some sz);;
    seek (- Z.min sz 15000) 2;;
    tail <- readlines;;
    end_loop (rev tail);;
    rollover;;
    seek 0 0;;
    ret true.

(** *** The lazy properties *)

Definition start : M (option datetime) :=
  stdin <- get from_stdin;;
  if stdin then ret None
  else
    v <- get _start;;
    (if negb (truthy v) then _calculate_bounds;; ret tt else ret tt);;
    get _start.

Definition end_ : M (option datetime) :=
  stdin <- get from_stdin;;
  if stdin then ret None
  else
    v <- get _end;;
    (if negb (truthy v) then _calculate_bounds;; ret tt else ret tt);;
    get _end.

Definition filesize : M (option Z) :=
  stdin <- get from_stdin;;
  if stdin then ret None
  else
    v <- get _filesize;;
    (if negb (truthy_int v) then _calculate_bounds;; ret tt else ret tt);;
    get _filesize.

Definition num_lines : M (option Z) :=
  stdin <- get from_stdin;;
  if stdin then ret None
  else
    v <- get _num_lines;;
    (if negb (truthy_int v) then _iterate_lines else ret tt);;
    get _num_lines.

Definition restarts : M (option (list (str * LogLine))) :=
  v <- get _num_lines;;
  (if negb (truthy_int v) then _iterate_lines else ret tt);;
  get _restarts.

Definition binary : M (option str) :=
  v <- get _num_lines;;
  (if negb (truthy_int v) then _iterate_lines else ret tt);;
  get _binary.

(** [versions[-1]] on a list known to be non-empty. *)
Definition last_version (versions : list str) : str := last versions [].

(** The loop of [versions] over the restarts. *)
Fixpoint versions_loop (rs : list (str * LogLine)) (versions : list str)
  : list str :=
  match rs with
  | [] => versions
  | (v, _) :: rs' =>
      if (Z.of_nat (List.length versions) =? 0)
         || negb (str_eqb v (last_version versions))
      then versions_loop rs' (versions ++ [v])
      else versions_loop rs' versions
  end.

(** Iterating over [None] is a [TypeError]. *)
Definition versions : M (list str) :=
  rs <- restarts;;
  match rs with
  | Some rs => ret (versions_loop rs [])
  | None => raise TypeError
  end.

(** [__iter__]: the records the generator yields when it is run to the
    end. *)
Definition __iter__ : M (list LogLine) :=
  seek 0 0;;
  ls <- pending_lines;;
  consume (List.concat ls);;
  ret (map mkLogLine ls).

Definition __len__ : M (option Z) := num_lines.

(** *** [_find_curr_line] *)

(** The [while line != ''] loop.  One round reads a line; the record is
    returned if it has a datetime, [None] is returned at once in previous
    mode, and the loop ends (the method then returns [None]) when the line
    read was empty. *)
Fixpoint find_loop (fuel : nat) (prev : bool) : M (option LogLine) :=
  match fuel with
  | O => fun _ => OutOfFuel
  | S fuel' =>
      line <- readline;;
      let logline := mkLogLine line in
      if truthy (datetime_of logline) then ret (Some logline)
      else if prev then ret None
      else match line with
           | [] => ret None
           | _ => find_loop fuel' prev
           end
  end.

Definition _find_curr_line (prev : bool) : M (option LogLine) :=
  curr_pos <- tell;;
  t <- tell;;
  let jump_back := Z.min t 15000 in
  seek (- jump_back) 1;;
  buff <- read jump_back;;
  seek curr_pos 0;;
  let newline_pos := rfind_nl buff in
  let newline_pos :=
    if prev then rfind_nl (slice_to buff newline_pos) else newline_pos in
  if newline_pos =? -1 then ret None
  else
    seek (newline_pos - jump_back) 1;;
    fuel <- get (fun s => S (List.length (rest (filehandle s))));;
    find_loop fuel prev.

(** *** [fast_forward] *)

(** [ceil(step_size / 2.)] *)
Definition ceil_half (step_size : Z) : Z := (step_size + 1) / 2.

(** [ll.datetime >= start_dt]; a missing datetime makes the comparison a
    [TypeError]. *)
Definition ge_start (ll : LogLine) (start_dt : datetime) : M bool :=
  match datetime_of ll with
  | Some d => ret (dt_geb d start_dt)
  | None => raise TypeError
  end.

(** The stdin path: [while not (ll and ll.datetime and ll.datetime >=
    start_dt)]. *)
Fixpoint skip_loop (fuel : nat) (start_dt : datetime) (ll : option LogLine)
  : M unit :=
  let found := match ll with
               | Some l => match datetime_of l with
                           | Some d => dt_geb d start_dt
                           | None => false
                           end
               | None => false
               end in
  if found then ret tt
  else match fuel with
       | O => fun _ => OutOfFuel
       | S fuel' =>
           line <- next;;
           skip_loop fuel' start_dt (Some (mkLogLine line))
       end.

(** The bisection: [while abs(step_size) > 100]; the result is [ll] when the
    loop is left. *)
Fixpoint bisect (fuel : nat) (start_dt : datetime) (step_size : Z)
  (ll : option LogLine) : M (option LogLine) :=
  if Z.abs step_size >? 100 then
    match fuel with
    | O => fun _ => OutOfFuel
    | S fuel' =>
        let step_size := ceil_half step_size in
        seek step_size 1;;
        ll <- _find_curr_line false;;
        match ll with
        | None => ret None
        | Some l =>
            ge <- ge_start l start_dt;;
            if ge then bisect fuel' start_dt (- Z.abs step_size) ll
            else bisect fuel' start_dt (Z.abs step_size) ll
        end
    end
  else ret ll.

(** The walk backwards: [while ll and self.filehandle.tell() >= 2 and
    ll.datetime >= start_dt]. *)
Fixpoint walk_back (fuel : nat) (start_dt : datetime) (ll : option LogLine)
  : M unit :=
  match ll with
  | None => ret tt
  | Some l =>
      p <- tell;;
      if p >=? 2 then
        ge <- ge_start l start_dt;;
        if ge then
          match fuel with
          | O => fun _ => OutOfFuel
          | S fuel' =>
              seek (-2) 1;;
              ll' <- _find_curr_line true;;
              walk_back fuel' start_dt ll'
          end
        else ret tt
      else ret tt
  end.

Definition fast_forward (start_dt : datetime) : M unit :=
  stdin <- get from_stdin;;
  if stdin then
    fuel <- get (fun s => S (List.length (rest (filehandle s))));;
    skip_loop fuel start_dt None
  else
    max_mark <- filesize;;
    match max_mark with
    | None => raise TypeError
    | Some max_mark =>
        let step_size := max_mark in
        ll <- bisect (Z.to_nat (Z.abs step_size)) start_dt step_size None;;
        match ll with
        | None => ret tt
        | Some _ =>
            fuel <- get (fun s => S (Z.to_nat (pos (filehandle s))));;
            walk_back fuel start_dt ll
        end
    end.

End Methods.

(** ** A line parser for the scenarios

    Modelled from the spec: the line parser ([LogLine], in
    [mtools.util.logline]) is not part of the sources at hand.  The spec's
    scenario writes a timestamped line as [[2021-01-01T00:00:00] text];
    [scenario_parse] reads exactly that prefix and finds no timestamp in
    any other line.  It is used for the concrete files below only; the
    general theorems hold for every parser. *)

Definition digit_val (c : ascii) : Z := Z.of_N (N_of_ascii c) - 48.

Definition num2 (a b : ascii) : option Z :=
  if is_digit a && is_digit b then Some (10 * digit_val a + digit_val b)
  else None.

Definition num4 (a b c d : ascii) : option Z :=
  match num2 a b, num2 c d with
  | Some hi, Some lo => Some (100 * hi + lo)
  | _, _ => None
  end.

Definition scenario_parse (line : str) : option datetime :=
  match line with
  | lb :: y1 :: y2 :: y3 :: y4 :: k1 :: m1 :: m2 :: k2 :: d1 :: d2 :: t
       :: h1 :: h2 :: c1 :: i1 :: i2 :: c2 :: s1 :: s2 :: rb :: _ =>
      if Ascii.eqb lb "["%char && Ascii.eqb k1 "-"%char
         && Ascii.eqb k2 "-"%char && Ascii.eqb t "T"%char
         && Ascii.eqb c1 ":"%char && Ascii.eqb c2 ":"%char
         && Ascii.eqb rb "]"%char
      then
        match num4 y1 y2 y3 y4, num2 m1 m2, num2 d1 d2,
              num2 h1 h2, num2 i1 i2, num2 s1 s2 with
        | Some y, Some m, Some d, Some h, Some i, Some s =>
            if (1 <=? y) && (1 <=? m) && (m <=? 12) && (1 <=? d)
               && (d <=? days_in_month y m) && (h <? 24) && (i <? 60)
               && (s <? 60)
            then Some (mkdt y m d h i s 0)
            else None
        | _, _, _, _, _, _ => None
        end
      else None
  | _ => None
  end.

(** A seekable file on disk and the standard input as a pipe. *)
Definition disk_file (text : string) : FileHandle :=
  mkFH (lit "mongod.log") (lit text) 0 true.

Definition stdin_pipe (text : string) : FileHandle :=
  mkFH (lit "<stdin>") (lit text) 0 false.

(** * Vocabulary of the properties

    Specification-side definitions: the outcomes of calls, what the loops
    compute in closed form, the concrete files of the scenarios, and the
    claims the code does not meet, as predicates. *)

(** ** Outcomes of calls *)

(** What a call returned, what it raised, and the object it left. *)
Definition returns {A} (r : res A) (a : A) : Prop := exists s, r = Ok a s.

Definition raises {A} (r : res A) (e : exn) : Prop :=
  exists s, r = Raise e s.

Definition state_after {A} (r : res A) (dflt : LogFile) : LogFile :=
  match r with
  | Ok _ s => s
  | Raise _ s => s
  | OutOfFuel => dflt
  end.

(** [t] is the same file as [s], at an offset that is not negative. *)
Definition same_file (s t : LogFile) : Prop :=
  seekable (filehandle t) = seekable (filehandle s) /\
  content (filehandle t) = content (filehandle s) /\
  0 <= pos (filehandle t).

(** A call made on [s] has returned on the same file, or raised. *)
Definition settled {A} (s : LogFile) (r : res A) : Prop :=
  match r with
  | Ok _ t => same_file s t
  | Raise _ _ => True
  | OutOfFuel => False
  end.

(** ** Collapsing consecutive duplicates *)

(** Refinement target, following the spec's words: a token is kept exactly
    when it differs from the most recently kept one. *)
Fixpoint collapse_after (kept : str) (vs : list str) : list str :=
  match vs with
  | [] => []
  | v :: vs' =>
      if str_eqb v kept then collapse_after kept vs'
      else v :: collapse_after v vs'
  end.

Definition collapse (vs : list str) : list str :=
  match vs with
  | [] => []
  | v :: vs' => v :: collapse_after v vs'
  end.

(** No two neighbours of the list are equal. *)
Fixpoint no_adjacent_dup (vs : list str) : Prop :=
  match vs with
  | [] => True
  | v :: vs' =>
      match vs' with
      | [] => True
      | w :: _ => v <> w
      end /\ no_adjacent_dup vs'
  end.

(** ** The full scan in closed form *)

(** The kind of binary a line announces, if it is a banner. *)
Definition banner_kind (line : str) : option str :=
  if contains (lit "version") line then
    if contains (lit "mongos") line || contains (lit "MongoS") line
    then Some (lit "mongos")
    else if contains (lit "db version v") line then Some (lit "mongod")
    else None
  else None.

(** The restart a line contributes. *)
Definition line_restart (line : str) : list (str * LogLine) :=
  match banner_kind line, re_search_version line with
  | Some _, Some version => [(version, mkLogLine line)]
  | _, _ => []
  end.

Definition binary_step (b : option str) (line : str) : option str :=
  match banner_kind line with
  | Some k => Some k
  | None => b
  end.

(** The value of the loop variable [l] after the loop. *)
Definition last_index (i : Z) (ls : list str) (l : Z) : Z :=
  match ls with
  | [] => l
  | _ :: _ => i + Z.of_nat (List.length ls) - 1
  end.

(** The object when the loop of [_iterate_lines] is over and the count is
    stored, just before the final [seek(0)]. *)
Definition after_scan (s : LogFile) : LogFile :=
  let ls := lines (rest (filehandle s)) in
  mkLF (set_pos (filehandle s) (pos (filehandle s) + len (List.concat ls)))
       (from_stdin s) (_start s) (_end s) (_filesize s)
       (Some (last_index 0 ls 0 + 1))
       (Some (flat_map line_restart ls))
       (fold_left binary_step ls (_binary s))
       (bounds_scans s) (S (lines_scans s)).

(** ** The bounds scan in closed form *)

Section BoundsDefs.

Variable parse_dt : str -> option datetime.

(** The datetime of the first line of [ls] that has one. *)
Fixpoint first_dt (ls : list str) : option datetime :=
  match ls with
  | [] => None
  | line :: ls' =>
      match parse_dt line with
      | Some d => Some d
      | None => first_dt ls'
      end
  end.

(** The bytes the first loop takes from the iterator. *)
Fixpoint consumed (ls : list str) : Z :=
  match ls with
  | [] => 0
  | line :: ls' =>
      len line + match parse_dt line with
                 | Some _ => 0
                 | None => consumed ls'
                 end
  end.

Definition or_else {A} (a b : option A) : option A :=
  match a with Some _ => a | None => b end.

(** The last 15000 bytes of the file, or all of it when it is shorter. *)
Definition tail_window (fh : FileHandle) : str :=
  skipn (Z.to_nat (size fh - Z.min (size fh) 15000)) (content fh).

(** The first datetime from the current position on, and the last one of
    the tail window: what the two loops find. *)
Definition raw_start (s : LogFile) : option datetime :=
  first_dt (lines (rest (filehandle s))).

Definition raw_end (s : LogFile) : option datetime :=
  first_dt (rev (lines (tail_window (filehandle s)))).

(** The object after the two loops, before the rollover test. *)
Definition raw_bounds (s : LogFile) : LogFile :=
  mkLF (set_pos (filehandle s) (size (filehandle s)))
       (from_stdin s)
       (or_else (raw_start s) (_start s))
       (or_else (raw_end s) (_end s))
       (Some (size (filehandle s)))
       (_num_lines s) (_restarts s) (_binary s)
       (S (bounds_scans s)) (lines_scans s).

End BoundsDefs.

(** ** The lazy properties as one family *)

Inductive property :=
| Pstart | Pend | Pfilesize | Pnum_lines | Prestarts | Pbinary.

Inductive value :=
| Vdatetime (d : option datetime)
| Vint (n : option Z)
| Vrestarts (r : option (list (str * LogLine)))
| Vstr (b : option str).

Section MemoDefs.

Variable parse_dt : str -> option datetime.

(** Reading the property [p]. *)
Definition access (p : property) : M value :=
  match p with
  | Pstart => d <- start parse_dt;; ret (Vdatetime d)
  | Pend => d <- end_ parse_dt;; ret (Vdatetime d)
  | Pfilesize => n <- filesize parse_dt;; ret (Vint n)
  | Pnum_lines => n <- num_lines;; ret (Vint n)
  | Prestarts => r <- restarts;; ret (Vrestarts r)
  | Pbinary => b <- binary;; ret (Vstr b)
  end.

(** The test each property makes before it scans: the property answers
    from the object as it is when this holds. *)
Definition cached (p : property) (s : LogFile) : bool :=
  match p with
  | Pstart => from_stdin s || truthy (_start s)
  | Pend => from_stdin s || truthy (_end s)
  | Pfilesize => from_stdin s || truthy_int (_filesize s)
  | Pnum_lines => from_stdin s || truthy_int (_num_lines s)
  | Prestarts | Pbinary => truthy_int (_num_lines s)
  end.

(** What the property answers from the object as it is. *)
Definition stored (p : property) (s : LogFile) : value :=
  match p with
  | Pstart => Vdatetime (if from_stdin s then None else _start s)
  | Pend => Vdatetime (if from_stdin s then None else _end s)
  | Pfilesize => Vint (if from_stdin s then None else _filesize s)
  | Pnum_lines => Vint (if from_stdin s then None else _num_lines s)
  | Prestarts => Vrestarts (_restarts s)
  | Pbinary => Vstr (_binary s)
  end.

(** The properties served by the full line scan. *)
Definition line_scan_property (p : property) : bool :=
  match p with
  | Pnum_lines | Prestarts | Pbinary => true
  | _ => false
  end.

End MemoDefs.

(** ** The line locator *)

(** The window [_find_curr_line] reads: the bytes just before the current
    offset, at most 15000 of them. *)
Definition window (fh : FileHandle) : str :=
  let jump_back := Z.min (pos fh) 15000 in
  firstn (Z.to_nat jump_back)
         (skipn (Z.to_nat (pos fh - jump_back)) (content fh)).

(** The index, in the window, of the line break the locator settles on. *)
Definition newline_index (prev : bool) (buff : str) : Z :=
  let newline_pos := rfind_nl buff in
  if prev then rfind_nl (slice_to buff newline_pos) else newline_pos.

(** The file offset the locator seeks to before it reads lines: the
    "located line boundary", absent when the window holds no qualifying
    line break. *)
Definition boundary (prev : bool) (fh : FileHandle) : option Z :=
  let np := newline_index prev (window fh) in
  if np =? -1 then None
  else Some (pos fh + (np - Z.min (pos fh) 15000)).

(** The stream stands right after the line of the record [l]: [l] is the
    line read at some offset [p], and the position is the end of that
    line. *)
Definition just_read (l : LogLine) (s : LogFile) : Prop :=
  exists p : Z,
    0 <= p /\
    pos (filehandle s) = p + len (line_str l) /\
    line_str l = take_line (skipn (Z.to_nat p) (content (filehandle s))).

(** No line, read from whatever offset of the file, has a timestamp. *)
Definition no_timestamps (parse_dt : str -> option datetime) (c : str)
  : Prop :=
  forall q : nat, parse_dt (take_line (skipn q c)) = None.

(** ** The files of the scenarios *)

(** The text of a file given line by line, each line closed by a line
    break. *)
Fixpoint text (ls : list string) : string :=
  match ls with
  | [] => EmptyString
  | l :: ls' => (l ++ String nl (text ls'))%string
  end.

(** Three banners of one version, one of another, and the first version
    again. *)
Definition restarted_log : LogFile :=
  __init__ (disk_file (text
    ["[2021-01-01T00:00:00] db version v2.4.10";
     "[2021-01-02T00:00:00] db version v2.4.10";
     "[2021-01-03T00:00:00] plain message";
     "[2021-01-04T00:00:00] db version v2.6.0";
     "[2021-01-05T00:00:00] db version v2.4.10"]%string)).

(** Three lines of fifty bytes each, timestamped in January, June and
    September 2021. *)
Definition three_line_log : LogFile :=
  __init__ (disk_file (text
    ["[2021-01-01T00:00:00] aaaaaaaaaaaaaaaaaaaaaaaaaaa";
     "[2021-06-01T00:00:00] bbbbbbbbbbbbbbbbbbbbbbbbbbb";
     "[2021-09-01T00:00:00] ccccccccccccccccccccccccccc"]%string)).

(** A file whose last timestamp is more than a year older than its
    first. *)
Definition two_years_back : LogFile :=
  __init__ (disk_file (text
    ["[2021-06-01T00:00:00] first line";
     "[2019-01-01T00:00:00] last line"]%string)).

(** A file that wraps around the turn of a year, with timestamps that all
    carry the same year. *)
Definition new_year_log : LogFile :=
  __init__ (disk_file (text
    ["[2021-12-31T23:59:58] before midnight";
     "no timestamp here";
     "[2021-01-01T00:00:03] after midnight"]%string)).

(** Two lines without a timestamp, then a timestamped one; the stream
    stands at the start of the third line. *)
Definition before_third_line : LogFile :=
  __init__ (mkFH (lit "mongod.log")
                 (lit (text ["x"; "y"; "[2021-01-01T00:00:00] m"]%string))
                 4 true).

(** A seekable file of 150 bytes in which no line has a timestamp. *)
Definition plain_file : FileHandle :=
  disk_file (text
    ["the quick brown fox jumps over the lazy dog, again";
     "and again, while nobody writes the time of day; 2";
     "a third line of the same width closes the file; 3"]%string).

(** A file of two lines, of January and of June 2021. *)
Definition two_line_log : LogFile :=
  __init__ (disk_file (text
    ["[2021-01-01T00:00:00] a"; "[2021-06-01T00:00:00] b"]%string)).

(** A file of 15001 bytes in which no line has a timestamp: its first line
    holds one after a leading [x], and two lines of 7487 letters follow.
    The last 15000 bytes start at the second byte of the first line. *)
Definition fragment_log : LogFile :=
  let filler := repeat "y"%char (Z.to_nat 7487) ++ [nl] in
  __init__ (mkFH (lit "mongod.log")
                 (lit "x[2021-01-01T00:00:00] a" ++ nl :: filler ++ filler)
                 0 true).

(** ** Claims the code does not meet, as they are written *)

(** The claim of C2 as it is written: once [start] and [end] have been
    read, [start <= end]. *)
Definition bounds_ordered (parse_dt : str -> option datetime) (s : LogFile)
  : Prop :=
  forall (st en : datetime) (s1 s2 : LogFile),
    start parse_dt s = Ok (Some st) s1 ->
    end_ parse_dt s1 = Ok (Some en) s2 ->
    dt_leb st en = true.

(** The claim of C5 as it is written: a second read of a property gives
    the same value and runs neither scan again. *)
Definition served_once (parse_dt : str -> option datetime) (p : property)
  (s : LogFile) : Prop :=
  forall (v w : value) (s1 s2 : LogFile),
    access parse_dt p s = Ok v s1 ->
    access parse_dt p s1 = Ok w s2 ->
    w = v /\ bounds_scans s2 = bounds_scans s1
          /\ lines_scans s2 = lines_scans s1.

(** The claim of C7 as it is written: in previous mode the locator
    answers the first record with a timestamp among the lines that follow
    the located boundary, and "not found" only when there is none. *)
Definition prev_scans_forward (parse_dt : str -> option datetime)
  (s : LogFile) : Prop :=
  forall (b : Z) (r : option LogLine) (t : LogFile),
    boundary true (filehandle s) = Some b ->
    _find_curr_line parse_dt true s = Ok r t ->
    r = option_map mkLogLine
          (find (fun l => truthy (parse_dt l))
                (lines (skipn (Z.to_nat b) (content (filehandle s))))).

(** The stream stands at the first line whose timestamp is at least
    [start_dt]: the next line read has such a timestamp, and every line
    before the position has an earlier timestamp or none. *)
Definition positioned_at_first (parse_dt : str -> option datetime)
  (start_dt : datetime) (fh : FileHandle) : Prop :=
  (exists d, parse_dt (take_line (rest fh)) = Some d /\
             dt_geb d start_dt = true) /\
  (forall l, In l (lines (firstn (Z.to_nat (pos fh)) (content fh))) ->
             match parse_dt l with
             | Some d => dt_ltb d start_dt = true
             | None => True
             end).

(** The claim of C1 as it is written. *)
Definition fast_forward_correct (parse_dt : str -> option datetime)
  (start_dt : datetime) (s : LogFile) : Prop :=
  (exists l d, In l (lines (content (filehandle s))) /\
               parse_dt l = Some d /\ dt_geb d start_dt = true) ->
  forall t, fast_forward parse_dt start_dt s = Ok tt t ->
            positioned_at_first parse_dt start_dt (filehandle t).

(** * Properties *)

(** ** Strings and the monad: basic facts *)

Lemma str_eqb_eq (a b : str) : str_eqb a b = true <-> a = b.
Proof.
  revert b; induction a as [|x a IH]; intros [|y b]; simpl.
  - tauto.
  - split; discriminate.
  - split; discriminate.
  - rewrite andb_true_iff, Ascii.eqb_eq, IH.
    split; [intros [-> ->]; reflexivity | intros H; inversion H; auto].
Qed.

Lemma str_eqb_neq (a b : str) : str_eqb a b = false <-> a <> b.
Proof.
  rewrite <- str_eqb_eq. destruct (str_eqb a b); split; intros H;
    congruence.
Qed.

(** ** versions *)

Lemma versions_loop_acc (rs : list (str * LogLine)) (acc : list str)
  (kept : str) :
  versions_loop rs (acc ++ [kept])
  = acc ++ kept :: collapse_after kept (map fst rs).
Proof.
  revert acc kept; induction rs as [|[v ll] rs IH]; intros acc kept; simpl.
  - reflexivity.
  - unfold last_version. rewrite last_last, length_app. simpl.
    replace (Z.of_nat (List.length acc + 1) =? 0) with false
      by (symmetry; apply Z.eqb_neq; lia).
    simpl. destruct (str_eqb v kept) eqn:E; simpl.
    + apply IH.
    + rewrite IH. rewrite <- app_assoc. reflexivity.
Qed.

Lemma versions_loop_collapse (rs : list (str * LogLine)) :
  versions_loop rs [] = collapse (map fst rs).
Proof.
  destruct rs as [|[v ll] rs]; simpl; [reflexivity|].
  apply (versions_loop_acc rs [] v).
Qed.

Lemma collapse_after_length (kept : str) (vs : list str) :
  (List.length (collapse_after kept vs) <= List.length vs)%nat.
Proof.
  revert kept; induction vs as [|v vs IH]; intros kept; simpl; [lia|].
  destruct (str_eqb v kept); simpl.
  - specialize (IH kept); lia.
  - specialize (IH v); lia.
Qed.

Lemma collapse_length (vs : list str) :
  (List.length (collapse vs) <= List.length vs)%nat.
Proof.
  destruct vs as [|v vs]; simpl; [lia|].
  pose proof (collapse_after_length v vs); lia.
Qed.

Lemma collapse_after_no_adjacent (kept : str) (vs : list str) :
  no_adjacent_dup (kept :: collapse_after kept vs).
Proof.
  revert kept; induction vs as [|v vs IH]; intros kept; simpl.
  - auto.
  - destruct (str_eqb v kept) eqn:E.
    + apply IH.
    + split; [|apply IH].
      apply str_eqb_neq in E; congruence.
Qed.

Lemma collapse_no_adjacent (vs : list str) : no_adjacent_dup (collapse vs).
Proof.
  destruct vs as [|v vs]; [exact I|]. apply collapse_after_no_adjacent.
Qed.

Lemma collapse_after_id (kept : str) (vs : list str) :
  no_adjacent_dup (kept :: vs) -> collapse_after kept vs = vs.
Proof.
  revert kept; induction vs as [|v vs IH]; intros kept H; simpl;
    [reflexivity|].
  destruct H as [Hne H].
  assert (E : str_eqb v kept = false) by (apply str_eqb_neq; congruence).
  rewrite E, (IH v H). reflexivity.
Qed.

Lemma collapse_id (vs : list str) : no_adjacent_dup vs -> collapse vs = vs.
Proof.
  destruct vs as [|v vs]; intros H; simpl; [reflexivity|].
  rewrite (collapse_after_id v vs H); reflexivity.
Qed.

(** ** The full scan *)

Lemma len_app (a b : str) : len (a ++ b) = len a + len b.
Proof. unfold len. rewrite length_app. lia. Qed.

Lemma len_nonneg (a : str) : 0 <= len a.
Proof. unfold len. lia. Qed.

Lemma iterate_body_spec (line : str) (s : LogFile)
  (rs : list (str * LogLine)) :
  _restarts s = Some rs ->
  iterate_body line s =
  Ok tt (mkLF (filehandle s) (from_stdin s) (_start s) (_end s)
           (_filesize s) (_num_lines s) (Some (rs ++ line_restart line))
           (binary_step (_binary s) line) (bounds_scans s) (lines_scans s)).
Proof.
  intros Hrs. unfold iterate_body, line_restart, binary_step, banner_kind.
  destruct s as [fh sd st en fs n r b bs lsn]; simpl in *; subst r.
  destruct (contains (lit "version") line); simpl;
    [|rewrite app_nil_r; reflexivity].
  destruct (contains (lit "mongos") line || contains (lit "MongoS") line);
    simpl.
  - unfold bind, set_binary, modify, record_version, append_restart, ret;
      simpl.
    destruct (re_search_version line); simpl;
      [reflexivity | rewrite app_nil_r; reflexivity].
  - destruct (contains (lit "db version v") line); simpl.
    + unfold bind, set_binary, modify, record_version, append_restart, ret;
        simpl.
      destruct (re_search_version line); simpl;
        [reflexivity | rewrite app_nil_r; reflexivity].
    + rewrite app_nil_r; reflexivity.
Qed.

Lemma iterate_loop_spec (ls : list str) :
  forall (i l : Z) (s : LogFile) (rs : list (str * LogLine)),
  _restarts s = Some rs ->
  iterate_loop i ls l s =
  Ok (last_index i ls l)
     (mkLF (set_pos (filehandle s)
                    (pos (filehandle s) + len (List.concat ls)))
           (from_stdin s) (_start s) (_end s) (_filesize s) (_num_lines s)
           (Some (rs ++ flat_map line_restart ls))
           (fold_left binary_step ls (_binary s))
           (bounds_scans s) (lines_scans s)).
Proof.
  induction ls as [|line ls IH]; intros i l s rs Hrs.
  - simpl. unfold ret, set_pos, len. simpl.
    rewrite Z.add_0_r, app_nil_r.
    destruct s as [[nm c p sk] sd st en fs n r b bs lsn]; simpl in *.
    subst r; reflexivity.
  - simpl iterate_loop. unfold bind at 1. unfold consume, modify.
    unfold bind at 1.
    erewrite iterate_body_spec by (simpl; exact Hrs).
    erewrite IH by (simpl; reflexivity).
    f_equal.
    + unfold last_index. destruct ls; simpl List.length; lia.
    + simpl. rewrite len_app, <- app_assoc. unfold set_pos; simpl.
      f_equal. f_equal. lia.
Qed.

Lemma _iterate_lines_spec (s : LogFile) :
  _iterate_lines s = seek 0 0 (after_scan s).
Proof.
  unfold _iterate_lines.
  unfold bind at 1, tick_lines, modify.
  unfold bind at 1, set_num_lines, modify.
  unfold bind at 1, set_restarts, modify.
  unfold bind at 1, pending_lines, get.
  unfold bind at 1.
  erewrite iterate_loop_spec by (simpl; reflexivity).
  unfold bind at 1, modify. simpl.
  reflexivity.
Qed.

Lemma last_index_count (ls : list str) :
  last_index 0 ls 0 + 1 = Z.max 1 (Z.of_nat (List.length ls)).
Proof.
  destruct ls as [|x ls]; unfold last_index; [simpl; lia|].
  change (List.length (x :: ls)) with (S (List.length ls)). lia.
Qed.

Lemma _iterate_lines_seekable (s : LogFile) :
  seekable (filehandle s) = true ->
  _iterate_lines s =
  Ok tt (with_fh (after_scan s) (set_pos (filehandle (after_scan s)) 0)).
Proof.
  intros Hsk. rewrite _iterate_lines_spec. unfold seek.
  simpl. rewrite Hsk. reflexivity.
Qed.

Lemma _iterate_lines_pipe (s : LogFile) :
  seekable (filehandle s) = false ->
  _iterate_lines s = Raise IOError (after_scan s).
Proof.
  intros Hsk. rewrite _iterate_lines_spec. unfold seek.
  simpl. rewrite Hsk. reflexivity.
Qed.

(** On a file that has at least one line, read from offset 0, the count is
    the number of lines, which is also the number of records the iterator
    yields. *)
Lemma num_lines_counts (s : LogFile) :
  seekable (filehandle s) = true ->
  from_stdin s = false ->
  truthy_int (_num_lines s) = false ->
  pos (filehandle s) = 0 ->
  lines (content (filehandle s)) <> [] ->
  exists records s1 s2,
    __iter__ s = Ok records s1 /\
    num_lines s = Ok (Some (Z.of_nat (List.length records))) s2.
Proof.
  intros Hsk Hin Hn Hp Hne.
  exists (map mkLogLine (lines (content (filehandle s)))).
  assert (Hiter : exists s1,
    __iter__ s = Ok (map mkLogLine (lines (content (filehandle s)))) s1).
  { unfold __iter__, bind, seek, pending_lines, consume, modify, get, ret.
    rewrite Hsk. simpl. eexists; reflexivity. }
  destruct Hiter as [s1 Hiter]. exists s1.
  unfold num_lines, bind, get. rewrite Hin, Hn. simpl.
  rewrite (_iterate_lines_seekable s Hsk). simpl.
  eexists. split; [exact Hiter|].
  unfold rest. rewrite Hp. simpl.
  rewrite last_index_count, length_map.
  rewrite Z.max_r; [reflexivity|].
  destruct (lines (content (filehandle s))) as [|x ls]; [congruence|].
  change (List.length (x :: ls)) with (S (List.length ls)). lia.
Qed.

(** C3 (the code departs from the claim): on an empty seekable file the
    iterator yields no record, yet [num_lines] and [__len__] answer 1, not
    0: the loop variable [l] keeps its initial value 0 and the method stores
    [l + 1]. *)
Theorem num_lines_empty_file :
  returns (__iter__ (__init__ (disk_file ""))) [] /\
  returns (num_lines (__init__ (disk_file ""))) (Some 1) /\
  returns (__len__ (__init__ (disk_file ""))) (Some 1).
Proof.
  repeat split; eexists; vm_compute; reflexivity.
Qed.

(** The off-by-one shows on empty input only: whatever is left to read,
    the stored count is the larger of 1 and the number of lines. *)
Lemma num_lines_after_scan (s : LogFile) :
  _num_lines (after_scan s)
  = Some (Z.max 1 (Z.of_nat (List.length (lines (rest (filehandle s)))))).
Proof. simpl. rewrite last_index_count. reflexivity. Qed.

(** ** Forward-only streams *)

(** The four guarded properties answer [None] on stdin and touch nothing. *)
Lemma guarded_properties_on_stdin (parse_dt : str -> option datetime)
  (s : LogFile) :
  from_stdin s = true ->
  start parse_dt s = Ok None s /\ end_ parse_dt s = Ok None s /\
  filesize parse_dt s = Ok None s /\ num_lines s = Ok None s.
Proof.
  intros H. unfold start, end_, filesize, num_lines, bind, get.
  rewrite H. repeat split.
Qed.

(** The two unguarded ones run the full scan, whose closing [seek(0)] a
    handle that cannot seek refuses. *)
Lemma scan_properties_on_pipe (s : LogFile) :
  seekable (filehandle s) = false ->
  truthy_int (_num_lines s) = false ->
  restarts s = Raise IOError (after_scan s) /\
  binary s = Raise IOError (after_scan s) /\
  versions s = Raise IOError (after_scan s).
Proof.
  intros Hsk Hn. unfold versions, restarts, binary, bind, get.
  rewrite Hn. simpl. rewrite (_iterate_lines_pipe s Hsk). repeat split.
Qed.

(** C4 (the code departs from the claim): on a forward-only stdin stream
    [start], [end], [filesize] and [num_lines] answer [None] without an
    exception, but [restarts] and [binary] raise [IOError]: the full scan
    ends with an unconditional [seek(0)], which the stream refuses; and the
    line count is answered [None], it is not computed. *)
Theorem stdin_scan_properties_raise :
  let s := __init__ (stdin_pipe
                       (text ["db version v2.4.10"; "ready"]%string)) in
  returns (start scenario_parse s) None /\
  returns (end_ scenario_parse s) None /\
  returns (filesize scenario_parse s) None /\
  returns (num_lines s) None /\
  raises (restarts s) IOError /\
  raises (binary s) IOError.
Proof.
  repeat split; eexists; vm_compute; reflexivity.
Qed.

(** ** A banner without a version token *)

(** When no pending line holds a token of the form digit.digit.digits, the
    scan records no restart, whatever it stores as the binary. *)
Lemma scan_without_tokens (s : LogFile) :
  (forall line, In line (lines (rest (filehandle s))) ->
                re_search_version line = None) ->
  _restarts (after_scan s) = Some [] /\
  _binary (after_scan s)
  = fold_left binary_step (lines (rest (filehandle s))) (_binary s).
Proof.
  intros H. split; [|reflexivity]. simpl. f_equal.
  induction (lines (rest (filehandle s))) as [|line ls IH]; simpl;
    [reflexivity|].
  unfold line_restart at 1. rewrite (H line (or_introl eq_refl)).
  destruct (banner_kind line); simpl; apply IH;
    intros l Hl; apply H; right; exact Hl.
Qed.

(** C10: there is an input with a line that has the keyword "version" and a
    kind marker but no dotted version token, for which the full scan stores
    the kind in [binary] and appends nothing to [restarts]; this holds for
    either kind. *)
Theorem binary_without_restart :
  exists line1 line2 : string,
    let s1 := __init__ (disk_file (text [line1])) in
    let s2 := __init__ (disk_file (text [line2])) in
    contains (lit "version") (lit line1) = true /\
    contains (lit "mongos") (lit line1) = true /\
    re_search_version (lit line1) = None /\
    returns (binary s1) (Some (lit "mongos")) /\
    returns (restarts s1) (Some []) /\
    contains (lit "version") (lit line2) = true /\
    contains (lit "db version v") (lit line2) = true /\
    re_search_version (lit line2) = None /\
    returns (binary s2) (Some (lit "mongod")) /\
    returns (restarts s2) (Some []).
Proof.
  exists "mongos version unknown, pid=4711"%string.
  exists "db version v2.x (development build)"%string.
  repeat split; try (vm_compute; reflexivity);
    eexists; vm_compute; reflexivity.
Qed.

(** ** versions, on the object *)

Lemma restarts_returns_cache (s s' : LogFile)
  (r : option (list (str * LogLine))) :
  restarts s = Ok r s' -> r = _restarts s'.
Proof.
  unfold restarts, bind, get.
  destruct (negb (truthy_int (_num_lines s))).
  - destruct (_iterate_lines s) as [u s1|e s1|]; intros H; inversion H;
      reflexivity.
  - unfold ret. intros H; inversion H; reflexivity.
Qed.

(** On a new object over a seekable file [versions] does return. *)
Lemma versions_returns_on_file (fh : FileHandle) :
  seekable fh = true ->
  exists vs s', versions (__init__ fh) = Ok vs s'.
Proof.
  intros Hsk. unfold versions, restarts, bind, get. simpl.
  rewrite (_iterate_lines_seekable (__init__ fh) Hsk). simpl.
  unfold ret. eauto.
Qed.

(** C6: whenever [versions] returns, its value is the sequence of version
    tokens of [restarts], in order, with consecutive duplicates collapsed:
    it is no longer than [restarts], no two neighbours are equal, and when
    no two neighbouring restarts carry the same token nothing is dropped,
    so a token that comes back later is kept. *)
Theorem versions_collapse_restarts :
  forall (s s' : LogFile) (vs : list str),
    versions s = Ok vs s' ->
    exists rs : list (str * LogLine),
      _restarts s' = Some rs /\
      vs = collapse (map fst rs) /\
      (List.length vs <= List.length rs)%nat /\
      no_adjacent_dup vs /\
      (no_adjacent_dup (map fst rs) -> vs = map fst rs).
Proof.
  intros s s' vs. unfold versions. unfold bind at 1.
  destruct (restarts s) as [r s1|e s1|] eqn:Hr; try discriminate.
  pose proof (restarts_returns_cache s s1 r Hr) as Hc.
  destruct r as [rs|]; unfold ret, raise; intros H; inversion H; subst.
  exists rs. rewrite versions_loop_collapse.
  split; [symmetry; exact Hc|]. split; [reflexivity|].
  split; [|split].
  - pose proof (collapse_length (map fst rs)) as H1.
    rewrite length_map in H1. exact H1.
  - apply collapse_no_adjacent.
  - apply collapse_id.
Qed.

Lemma versions_collapse_restarts_witness :
  exists rs : list (str * LogLine),
    _restarts (state_after (versions restarted_log) restarted_log) = Some rs /\
    [lit "2.4.10"; lit "2.6.0"; lit "2.4.10"] = collapse (map fst rs) /\
    (3 <= List.length rs)%nat /\
    no_adjacent_dup [lit "2.4.10"; lit "2.6.0"; lit "2.4.10"] /\
    (no_adjacent_dup (map fst rs) ->
     [lit "2.4.10"; lit "2.6.0"; lit "2.4.10"] = map fst rs).
Proof.
  apply (versions_collapse_restarts restarted_log
           (state_after (versions restarted_log) restarted_log)
           [lit "2.4.10"; lit "2.6.0"; lit "2.4.10"]).
  vm_compute. reflexivity.
Defined.

(** ** The bounds scan *)

Section Bounds.

Variable parse_dt : str -> option datetime.

Lemma start_loop_spec (ls : list str) :
  forall s : LogFile,
  start_loop parse_dt ls s =
  Ok tt (mkLF (set_pos (filehandle s)
                       (pos (filehandle s) + consumed parse_dt ls))
              (from_stdin s) (or_else (first_dt parse_dt ls) (_start s))
              (_end s)
              (_filesize s) (_num_lines s) (_restarts s) (_binary s)
              (bounds_scans s) (lines_scans s)).
Proof.
  induction ls as [|line ls IH]; intros s; simpl.
  - unfold ret, set_pos. rewrite Z.add_0_r.
    destruct s as [[nm c p sk] sd st en fs n r b bs lsn]; reflexivity.
  - unfold bind at 1, consume, modify, datetime_of. simpl.
    destruct (parse_dt line) as [d|] eqn:E.
    + unfold set_start, modify, set_pos. simpl.
      rewrite Z.add_0_r. reflexivity.
    + rewrite IH. unfold set_pos. simpl. rewrite Z.add_assoc. reflexivity.
Qed.

Lemma end_loop_spec (ls : list str) :
  forall s : LogFile,
  end_loop parse_dt ls s =
  Ok tt (mkLF (filehandle s) (from_stdin s) (_start s)
              (or_else (first_dt parse_dt ls) (_end s))
              (_filesize s) (_num_lines s) (_restarts s) (_binary s)
              (bounds_scans s) (lines_scans s)).
Proof.
  induction ls as [|line ls IH]; intros s; simpl.
  - unfold ret. destruct s; reflexivity.
  - unfold datetime_of. simpl. destruct (parse_dt line) as [d|] eqn:E.
    + reflexivity.
    + rewrite IH. reflexivity.
Qed.

Lemma len_skipn (n : nat) (a : str) :
  (n <= List.length a)%nat -> len (skipn n a) = len a - Z.of_nat n.
Proof. intros H. unfold len. rewrite length_skipn. lia. Qed.

Lemma _calculate_bounds_spec (s : LogFile) :
  from_stdin s = false ->
  seekable (filehandle s) = true ->
  _calculate_bounds parse_dt s =
  (rollover;; seek 0 0;; ret true) (raw_bounds parse_dt s).
Proof.
  destruct s as [[nm c p sk] sd st en fs n r b bs lsn]. simpl.
  intros -> ->.
  unfold _calculate_bounds, bind at 1, tick_bounds, modify.
  unfold bind at 1, get; simpl.
  unfold bind at 1, pending_lines, get; simpl.
  unfold bind at 1. rewrite start_loop_spec; simpl.
  unfold bind, seek, tell, set_filesize, readlines, consume, modify, get,
    ret, size, set_pos, with_fh, rest; simpl.
  pose proof (len_nonneg c) as Hc.
  rewrite Z.add_0_r.
  replace (len c <? 0) with false by (symmetry; apply Z.ltb_ge; lia).
  simpl.
  replace (len c + - Z.min (len c) 15000 <? 0) with false
    by (symmetry; apply Z.ltb_ge; lia).
  simpl. rewrite end_loop_spec; simpl.
  match goal with
  | |- match rollover ?a with _ => _ end = match rollover ?b with _ => _ end =>
      replace a with b; [reflexivity|]
  end.
  unfold raw_bounds, raw_start, raw_end, tail_window, rest, size, set_pos.
  simpl.
  replace (len c + - Z.min (len c) 15000) with (len c - Z.min (len c) 15000)
    by lia.
  rewrite len_skipn by (unfold len in *; lia).
  rewrite Z2Nat.id by lia.
  replace (len c - Z.min (len c) 15000
           + (len c - (len c - Z.min (len c) 15000)))
    with (len c) by lia.
  reflexivity.
Qed.

End Bounds.

(** ** Order of datetimes *)

Lemma lex_opp (c d : comparison) :
  CompOpp (lex c d) = lex (CompOpp c) (CompOpp d).
Proof. destruct c; reflexivity. Qed.

Lemma dt_compare_antisym (a b : datetime) :
  dt_compare b a = CompOpp (dt_compare a b).
Proof.
  unfold dt_compare. rewrite !lex_opp, <- !Z.compare_antisym. reflexivity.
Qed.

Lemma dt_leb_of_not_ltb (a b : datetime) :
  dt_ltb b a = false -> dt_leb a b = true.
Proof.
  unfold dt_ltb, dt_leb. rewrite (dt_compare_antisym b a).
  destruct (dt_compare b a); simpl; congruence.
Qed.

Lemma dt_leb_of_year (a b : datetime) : year a < year b -> dt_leb a b = true.
Proof.
  intros H. unfold dt_leb, dt_compare.
  apply Z.compare_lt_iff in H. rewrite H. reflexivity.
Qed.

Lemma replace_year_fields (d d' : datetime) (y : Z) :
  replace_year d y = Some d' ->
  d' = mkdt y (month d) (day d) (hour d) (minute d) (second d)
            (microsecond d).
Proof.
  unfold replace_year.
  destruct ((1 <=? y) && (y <=? 9999) && (day d <=? days_in_month y (month d)));
    intros H; inversion H; reflexivity.
Qed.

(** ** Position after the scans, and the order of the bounds *)

Lemma rollover_frame (s s' : LogFile) (u : unit) :
  rollover s = Ok u s' ->
  filehandle s' = filehandle s /\ _end s' = _end s /\
  _filesize s' = _filesize s.
Proof.
  unfold rollover, set_start, modify. intros H.
  destruct (_end s) as [e|] eqn:He, (_start s) as [st|] eqn:Hs;
    try discriminate.
  - destruct (dt_ltb e st).
    + destruct (replace_year st (year st - 1)); try discriminate.
      inversion H; subst; simpl; auto.
    + inversion H; subst; auto.
  - inversion H; subst; auto.
Qed.

Lemma _calculate_bounds_position (parse_dt : str -> option datetime)
  (s s' : LogFile) (r : bool) :
  from_stdin s = false ->
  seekable (filehandle s) = true ->
  _calculate_bounds parse_dt s = Ok r s' ->
  pos (filehandle s') = 0 /\
  content (filehandle s') = content (filehandle s) /\
  seekable (filehandle s') = seekable (filehandle s).
Proof.
  intros Hin Hsk. rewrite (_calculate_bounds_spec parse_dt s Hin Hsk).
  unfold bind at 1.
  destruct (rollover (raw_bounds parse_dt s)) as [u t|e t|] eqn:Hr;
    try discriminate.
  apply rollover_frame in Hr. destruct Hr as [Hfh _].
  unfold bind, seek, ret. rewrite Hfh. simpl. rewrite Hsk. simpl.
  intros H; inversion H; simpl. auto.
Qed.

(** C9: on a seekable file, the bounds scan and the full line scan both
    leave the stream at byte offset 0 when they return; [fast_forward] can
    leave it elsewhere (offset 98 of the three-line file for a target in
    March). *)
Theorem scans_restore_position :
  (forall (parse_dt : str -> option datetime) (s s' : LogFile) (r : bool),
     from_stdin s = false -> seekable (filehandle s) = true ->
     _calculate_bounds parse_dt s = Ok r s' ->
     pos (filehandle s') = 0) /\
  (forall s : LogFile,
     seekable (filehandle s) = true ->
     exists s', _iterate_lines s = Ok tt s' /\ pos (filehandle s') = 0) /\
  (exists s',
     fast_forward scenario_parse (mkdt 2021 3 1 0 0 0 0) three_line_log
     = Ok tt s' /\ pos (filehandle s') = 98).
Proof.
  split; [|split].
  - intros parse_dt s s' r Hin Hsk H.
    apply (_calculate_bounds_position parse_dt s s' r Hin Hsk H).
  - intros s Hsk. eexists. split.
    + apply (_iterate_lines_seekable s Hsk).
    + reflexivity.
  - eexists. split; vm_compute; reflexivity.
Qed.

Lemma scans_restore_position_witness :
  pos (filehandle (state_after
        (_calculate_bounds scenario_parse three_line_log) three_line_log)) = 0.
Proof.
  apply (proj1 scans_restore_position scenario_parse three_line_log _ true).
  - reflexivity.
  - reflexivity.
  - vm_compute. reflexivity.
Defined.

(** C2, counterexample: the first line is of June 2021 and the last of
    January 2019; one year is taken off [start], which becomes June 2020 and
    is still later than [end]. *)
Lemma bounds_not_ordered : ~ bounds_ordered scenario_parse two_years_back.
Proof.
  intros H.
  pose (s1 := state_after (start scenario_parse two_years_back)
                          two_years_back).
  assert (H1 : start scenario_parse two_years_back
               = Ok (Some (mkdt 2020 6 1 0 0 0 0)) s1)
    by (vm_compute; reflexivity).
  assert (H2 : end_ scenario_parse s1 = Ok (Some (mkdt 2019 1 1 0 0 0 0)) s1)
    by (vm_compute; reflexivity).
  specialize (H _ _ _ _ H1 H2). vm_compute in H. discriminate.
Qed.

(** C2, amended: when the first loop finds a datetime [rs] and the tail
    loop finds [re], and the bounds scan returns, [end] is [re]; if [re] is
    not earlier than [rs], [start] is [rs] and [start <= end]; if [re] is
    earlier than [rs], [start] is [rs] with its year lowered by one, and
    [start <= end] holds when [rs] and [re] lie in the same calendar
    year. *)
Theorem bounds_order_after_rollover :
  forall (parse_dt : str -> option datetime) (s s' : LogFile) (r : bool)
         (rs re : datetime),
    from_stdin s = false ->
    seekable (filehandle s) = true ->
    raw_start parse_dt s = Some rs ->
    raw_end parse_dt s = Some re ->
    _calculate_bounds parse_dt s = Ok r s' ->
    _end s' = Some re /\
    (dt_ltb re rs = false -> _start s' = Some rs /\ dt_leb rs re = true) /\
    (dt_ltb re rs = true ->
     let st' := mkdt (year rs - 1) (month rs) (day rs) (hour rs) (minute rs)
                     (second rs) (microsecond rs) in
     _start s' = Some st' /\
     (year re = year rs -> dt_leb st' re = true)).
Proof.
  intros parse_dt s s' r rs re Hin Hsk Hrs Hre.
  rewrite (_calculate_bounds_spec parse_dt s Hin Hsk).
  unfold bind, rollover, seek, ret, set_start, modify, raw_bounds. simpl.
  rewrite Hrs, Hre. simpl.
  destruct (dt_ltb re rs) eqn:Hlt.
  - destruct (replace_year rs (year rs - 1)) as [st'|] eqn:Hrep;
      try discriminate.
    simpl. rewrite Hsk. simpl. intros H; inversion H; subst; simpl.
    apply replace_year_fields in Hrep. subst st'.
    split; [reflexivity|]. split; [discriminate|].
    intros _. split; [reflexivity|].
    intros Hy. apply dt_leb_of_year. simpl. lia.
  - simpl. rewrite Hsk. simpl. intros H; inversion H; subst; simpl.
    split; [reflexivity|]. split; [|discriminate].
    intros _. split; [reflexivity|]. apply dt_leb_of_not_ltb. exact Hlt.
Qed.

Lemma bounds_order_after_rollover_witness :
  let s' := state_after (_calculate_bounds scenario_parse new_year_log)
                        new_year_log in
  _end s' = Some (mkdt 2021 1 1 0 0 3 0) /\
  _start s' = Some (mkdt 2020 12 31 23 59 58 0) /\
  dt_leb (mkdt 2020 12 31 23 59 58 0) (mkdt 2021 1 1 0 0 3 0) = true.
Proof.
  intros s'.
  destruct (bounds_order_after_rollover scenario_parse new_year_log s' true
              (mkdt 2021 12 31 23 59 58 0) (mkdt 2021 1 1 0 0 3 0))
    as [He [_ Hroll]]; try (vm_compute; reflexivity).
  destruct (Hroll eq_refl) as [Hs Hle].
  split; [exact He|]. split; [exact Hs|]. apply Hle. reflexivity.
Defined.

(** Two ways the bounds scan does not return at all: the comparison
    refuses [None] when only one of the two loops found a datetime, and the
    year cannot be lowered under a 29th of February. *)
Lemma bounds_leap_day_raises :
  raises (start scenario_parse (__init__ (disk_file (text
    ["[2020-02-29T12:00:00] leap day";
     "[2020-01-01T00:00:00] new year"]%string)))) ValueError.
Proof. eexists. vm_compute. reflexivity. Qed.

Lemma bounds_missing_end_raises :
  raises (start scenario_parse (__init__ (mkFH (lit "mongod.log")
    (lit "[2021-01-01T00:00:00] only timestamp"
     ++ nl :: repeat "x"%char (Z.to_nat 15001))
    0 true))) TypeError.
Proof. eexists. vm_compute. reflexivity. Qed.

(** ** Memoization of the lazy properties *)

Section Memo.

Variable parse_dt : str -> option datetime.

Lemma access_cached (p : property) (s : LogFile) :
  cached p s = true -> access parse_dt p s = Ok (stored p s) s.
Proof.
  destruct p; simpl;
    unfold start, end_, filesize, num_lines, restarts, binary, bind, get, ret;
    destruct (from_stdin s); simpl; try reflexivity;
    intros H; rewrite H; reflexivity.
Qed.

Lemma rollover_frame_flags (s s' : LogFile) (u : unit) :
  rollover s = Ok u s' ->
  from_stdin s' = from_stdin s /\ bounds_scans s' = bounds_scans s.
Proof.
  unfold rollover, set_start, modify.
  destruct (_end s) as [e|], (_start s) as [st|]; try discriminate.
  - destruct (dt_ltb e st).
    + destruct (replace_year st (year st - 1)); try discriminate.
      intros H; inversion H; subst; simpl; auto.
    + intros H; inversion H; subst; auto.
  - intros H; inversion H; subst; auto.
Qed.

Lemma bounds_frame (s s' : LogFile) (r : bool) :
  _calculate_bounds parse_dt s = Ok r s' ->
  from_stdin s' = from_stdin s /\ bounds_scans s' = S (bounds_scans s).
Proof.
  unfold _calculate_bounds.
  unfold bind at 1, tick_bounds, modify. unfold bind at 1, get. simpl.
  destruct (from_stdin s) eqn:Hin.
  - unfold ret. intros H; inversion H; simpl; auto.
  - unfold bind at 1, pending_lines, get.
    unfold bind at 1. rewrite start_loop_spec.
    unfold bind at 1, seek. simpl.
    destruct (negb (seekable (filehandle s))); try discriminate.
    match goal with |- context [if ?c then _ else _] => destruct c end;
      try discriminate.
    unfold bind at 1, tell. simpl.
    destruct (negb (seekable (filehandle s))); try discriminate.
    unfold bind at 1, set_filesize, modify.
    unfold bind at 1, seek. simpl.
    destruct (negb (seekable (filehandle s))); try discriminate.
    match goal with |- context [if ?c then _ else _] => destruct c end;
      try discriminate.
    unfold bind at 1, readlines. unfold bind at 1, get.
    unfold bind at 1, consume, modify. unfold bind at 1, ret.
    rewrite end_loop_spec. simpl.
    unfold bind at 1.
    match goal with |- context [rollover ?t] =>
      destruct (rollover t) as [u t'|e t'|] eqn:Hr; try discriminate
    end.
    apply rollover_frame_flags in Hr. simpl in Hr. destruct Hr as [Hf Hb].
    unfold bind, seek.
    destruct (negb (seekable (filehandle t'))); try discriminate.
    simpl. intros H; inversion H; simpl. auto.
Qed.

Lemma iterate_frame_stdin (s s' : LogFile) (u : unit) :
  _iterate_lines s = Ok u s' -> from_stdin s' = from_stdin s.
Proof.
  rewrite _iterate_lines_spec. unfold seek. simpl.
  destruct (negb (seekable (filehandle s))); try discriminate.
  intros H; inversion H; reflexivity.
Qed.

Lemma then_get {A B} (m : M A) (f : LogFile -> B) (s s1 : LogFile) (v : B) :
  (m;; get f) s = Ok v s1 -> v = f s1.
Proof.
  unfold bind, get. destruct (m s); intros H; inversion H; reflexivity.
Qed.

Lemma then_get_frame {A B} (m : M A) (f : LogFile -> B) (s s1 : LogFile)
  (v : B) :
  (forall a t, m s = Ok a t -> from_stdin t = from_stdin s) ->
  (m;; get f) s = Ok v s1 -> from_stdin s1 = from_stdin s.
Proof.
  unfold bind, get. intros Hf. destruct (m s) as [a t|e t|]; intros H;
    inversion H; subst. apply (Hf a s1 eq_refl).
Qed.

Lemma maybe_bounds_frame (c : bool) (s t : LogFile) (a : unit) :
  (if c then _calculate_bounds parse_dt;; ret tt else ret tt) s = Ok a t ->
  from_stdin t = from_stdin s.
Proof.
  destruct c; unfold bind, ret.
  - destruct (_calculate_bounds parse_dt s) as [r t'|e t'|] eqn:Hb;
      intros H; inversion H; subst. apply (bounds_frame _ _ _ Hb).
  - intros H; inversion H; reflexivity.
Qed.

Lemma maybe_iterate_frame (c : bool) (s t : LogFile) (a : unit) :
  (if c then _iterate_lines else ret tt) s = Ok a t ->
  from_stdin t = from_stdin s.
Proof.
  destruct c; unfold ret.
  - apply iterate_frame_stdin.
  - intros H; inversion H; reflexivity.
Qed.

Lemma start_returns_stored (s s1 : LogFile) (v : option datetime) :
  start parse_dt s = Ok v s1 -> Vdatetime v = stored Pstart s1.
Proof.
  unfold start. unfold bind at 1, get at 1.
  destruct (from_stdin s) eqn:Hin.
  - unfold ret; intros H; inversion H; subst; simpl; rewrite Hin; reflexivity.
  - unfold bind at 1, get at 1. intros H.
    pose proof (then_get _ _ _ _ _ H) as Hv.
    pose proof (then_get_frame _ _ _ _ _
                  (fun a t => maybe_bounds_frame _ s t a) H) as Hf.
    simpl. rewrite Hf, Hin, Hv. reflexivity.
Qed.

Lemma end_returns_stored (s s1 : LogFile) (v : option datetime) :
  end_ parse_dt s = Ok v s1 -> Vdatetime v = stored Pend s1.
Proof.
  unfold end_. unfold bind at 1, get at 1.
  destruct (from_stdin s) eqn:Hin.
  - unfold ret; intros H; inversion H; subst; simpl; rewrite Hin; reflexivity.
  - unfold bind at 1, get at 1. intros H.
    pose proof (then_get _ _ _ _ _ H) as Hv.
    pose proof (then_get_frame _ _ _ _ _
                  (fun a t => maybe_bounds_frame _ s t a) H) as Hf.
    simpl. rewrite Hf, Hin, Hv. reflexivity.
Qed.

Lemma filesize_returns_stored (s s1 : LogFile) (v : option Z) :
  filesize parse_dt s = Ok v s1 -> Vint v = stored Pfilesize s1.
Proof.
  unfold filesize. unfold bind at 1, get at 1.
  destruct (from_stdin s) eqn:Hin.
  - unfold ret; intros H; inversion H; subst; simpl; rewrite Hin; reflexivity.
  - unfold bind at 1, get at 1. intros H.
    pose proof (then_get _ _ _ _ _ H) as Hv.
    pose proof (then_get_frame _ _ _ _ _
                  (fun a t => maybe_bounds_frame _ s t a) H) as Hf.
    simpl. rewrite Hf, Hin, Hv. reflexivity.
Qed.

Lemma num_lines_returns_stored (s s1 : LogFile) (v : option Z) :
  num_lines s = Ok v s1 -> Vint v = stored Pnum_lines s1.
Proof.
  unfold num_lines. unfold bind at 1, get at 1.
  destruct (from_stdin s) eqn:Hin.
  - unfold ret; intros H; inversion H; subst; simpl; rewrite Hin; reflexivity.
  - unfold bind at 1, get at 1. intros H.
    pose proof (then_get _ _ _ _ _ H) as Hv.
    pose proof (then_get_frame _ _ _ _ _
                  (fun a t => maybe_iterate_frame _ s t a) H) as Hf.
    simpl. rewrite Hf, Hin, Hv. reflexivity.
Qed.

Lemma access_returns_stored (p : property) (s s1 : LogFile) (v : value) :
  access parse_dt p s = Ok v s1 -> v = stored p s1.
Proof.
  destruct p; simpl; unfold bind at 1.
  - destruct (start parse_dt s) as [d t|e t|] eqn:E; try discriminate.
    unfold ret; intros H; inversion H; subst.
    apply (start_returns_stored _ _ _ E).
  - destruct (end_ parse_dt s) as [d t|e t|] eqn:E; try discriminate.
    unfold ret; intros H; inversion H; subst.
    apply (end_returns_stored _ _ _ E).
  - destruct (filesize parse_dt s) as [d t|e t|] eqn:E; try discriminate.
    unfold ret; intros H; inversion H; subst.
    apply (filesize_returns_stored _ _ _ E).
  - destruct (num_lines s) as [d t|e t|] eqn:E; try discriminate.
    unfold ret; intros H; inversion H; subst.
    apply (num_lines_returns_stored _ _ _ E).
  - destruct (restarts s) as [d t|e t|] eqn:E; try discriminate.
    unfold ret; intros H; inversion H; subst.
    unfold restarts in E. unfold bind at 1, get at 1 in E.
    rewrite (then_get _ _ _ _ _ E). reflexivity.
  - destruct (binary s) as [d t|e t|] eqn:E; try discriminate.
    unfold ret; intros H; inversion H; subst.
    unfold binary in E. unfold bind at 1, get at 1 in E.
    rewrite (then_get _ _ _ _ _ E). reflexivity.
Qed.

(** The full scan always stores a count that is true. *)
Lemma maybe_iterate_counted (s t : LogFile) (a : unit) :
  (if negb (truthy_int (_num_lines s)) then _iterate_lines else ret tt) s
  = Ok a t ->
  truthy_int (_num_lines t) = true.
Proof.
  destruct (truthy_int (_num_lines s)) eqn:Hn; simpl.
  - unfold ret; intros H; inversion H; subst; exact Hn.
  - rewrite _iterate_lines_spec. unfold seek.
    destruct (negb (seekable (filehandle (after_scan s)))); try discriminate.
    simpl. intros H; inversion H; subst; simpl.
    rewrite last_index_count. apply negb_true_iff, Z.eqb_neq. lia.
Qed.

Lemma line_scan_cached (p : property) (s s1 : LogFile) (v : value) :
  line_scan_property p = true ->
  access parse_dt p s = Ok v s1 -> cached p s1 = true.
Proof.
  destruct p; simpl; try discriminate; intros _; unfold bind at 1.
  - unfold num_lines. unfold bind at 1, get at 1.
    destruct (from_stdin s) eqn:Hin.
    + unfold ret; simpl. intros H; inversion H; subst. rewrite Hin.
      reflexivity.
    + unfold bind at 1, get at 1. unfold bind at 1.
      match goal with |- context [?m s] =>
        destruct (m s) as [a t|e t|] eqn:E; try discriminate end.
      apply maybe_iterate_counted in E.
      unfold get, ret. intros H; inversion H; subst. rewrite E.
      apply orb_true_r.
  - unfold restarts. unfold bind at 1, get at 1. unfold bind at 1.
    match goal with |- context [?m s] =>
      destruct (m s) as [a t|e t|] eqn:E; try discriminate end.
    apply maybe_iterate_counted in E.
    unfold get, ret. intros H; inversion H; subst. exact E.
  - unfold binary. unfold bind at 1, get at 1. unfold bind at 1.
    match goal with |- context [?m s] =>
      destruct (m s) as [a t|e t|] eqn:E; try discriminate end.
    apply maybe_iterate_counted in E.
    unfold get, ret. intros H; inversion H; subst. exact E.
Qed.

End Memo.

(** C5, counterexample: on an empty seekable file [filesize] is 0, which
    the test [if not self._filesize] takes for "not computed": the second
    read runs the bounds scan a second time. *)
Lemma filesize_scanned_twice :
  ~ served_once scenario_parse Pfilesize (__init__ (disk_file "")).
Proof.
  intros H.
  pose (s0 := __init__ (disk_file "")).
  pose (s1 := state_after (access scenario_parse Pfilesize s0) s0).
  pose (s2 := state_after (access scenario_parse Pfilesize s1) s0).
  assert (H1 : access scenario_parse Pfilesize s0 = Ok (Vint (Some 0)) s1)
    by (vm_compute; reflexivity).
  assert (H2 : access scenario_parse Pfilesize s1 = Ok (Vint (Some 0)) s2)
    by (vm_compute; reflexivity).
  destruct (H _ _ _ _ H1 H2) as [_ [Hb _]].
  vm_compute in Hb. discriminate.
Qed.

Lemma rescan_counted (parse_dt : str -> option datetime) {B}
  (f : LogFile -> B) (s s2 : LogFile) (w : B) :
  ((_calculate_bounds parse_dt;; ret tt);; get f) s = Ok w s2 ->
  bounds_scans s2 = S (bounds_scans s).
Proof.
  unfold bind, ret, get.
  destruct (_calculate_bounds parse_dt s) as [r t|e t|] eqn:Hb;
    try discriminate.
  intros H; inversion H; subst. apply (bounds_frame _ _ _ _ Hb).
Qed.

(** ** A second read gives the same value *)

Section Repeat.

Variable parse_dt : str -> option datetime.

(** A bounds scan that returns was made on a stream that can seek. *)
Lemma bounds_returns_seekable (s t : LogFile) (r : bool) :
  from_stdin s = false ->
  _calculate_bounds parse_dt s = Ok r t ->
  seekable (filehandle s) = true.
Proof.
  intros Hin H.
  destruct (seekable (filehandle s)) eqn:Hsk; [reflexivity|exfalso].
  revert H. unfold _calculate_bounds.
  unfold bind at 1, tick_bounds, modify. unfold bind at 1, get. simpl.
  rewrite Hin.
  unfold bind at 1, pending_lines, get.
  unfold bind at 1. rewrite start_loop_spec.
  unfold bind at 1, seek. simpl. rewrite Hsk. simpl. discriminate.
Qed.

(** What the rollover test leaves in [_start]: nothing when both bounds are
    absent, a datetime when both are there. *)
Lemma rollover_start (s s' : LogFile) (u : unit) :
  rollover s = Ok u s' ->
  (_end s = None /\ _start s = None /\ _start s' = None) \/
  (exists e st st',
     _end s = Some e /\ _start s = Some st /\ _start s' = Some st').
Proof.
  unfold rollover, set_start, modify. intros H.
  destruct (_end s) as [e|] eqn:He, (_start s) as [st|] eqn:Hs;
    try discriminate.
  - right. exists e, st.
    destruct (dt_ltb e st).
    + destruct (replace_year st (year st - 1)) as [st'|]; try discriminate.
      exists st'. inversion H; subst; simpl; auto.
    + exists st. inversion H; subst; auto.
  - left. inversion H; subst; auto.
Qed.

(** The object a returning bounds scan leaves. *)
Lemma bounds_shape (s t : LogFile) (r : bool) :
  from_stdin s = false ->
  _calculate_bounds parse_dt s = Ok r t ->
  from_stdin t = false /\
  content (filehandle t) = content (filehandle s) /\
  _filesize t = Some (size (filehandle s)) /\
  _end t = or_else (raw_end parse_dt s) (_end s) /\
  ((_end t = None /\ _start t = None) \/
   (exists e st', _end t = Some e /\ _start t = Some st')).
Proof.
  intros Hin H.
  pose proof (bounds_returns_seekable s t r Hin H) as Hsk.
  rewrite (_calculate_bounds_spec parse_dt s Hin Hsk) in H.
  revert H. unfold bind at 1.
  destruct (rollover (raw_bounds parse_dt s)) as [u t'|e t'|] eqn:Hr;
    try discriminate.
  destruct (rollover_frame _ _ _ Hr) as [Hfh [Hen Hfs]].
  destruct (rollover_frame_flags _ _ _ Hr) as [Hfl _].
  pose proof (rollover_start _ _ _ Hr) as Hst.
  unfold bind, seek, ret. rewrite Hfh. simpl. rewrite Hsk. simpl.
  intros H; inversion H; subst; simpl.
  simpl in Hen, Hfs, Hfl. rewrite Hen, Hfs, Hfl.
  repeat split; try assumption; try reflexivity.
  destruct Hst as [[H1 [H2 H3]]|[e [st [st' [H1 [H2 H3]]]]]]; simpl in H1.
  - left. split; assumption.
  - right. exists e, st'. split; assumption.
Qed.

(** The last datetime of the tail window depends on the bytes of the file
    only. *)
Lemma raw_end_content (s t : LogFile) :
  content (filehandle t) = content (filehandle s) ->
  raw_end parse_dt t = raw_end parse_dt s.
Proof.
  intros H. unfold raw_end, tail_window, size. rewrite H. reflexivity.
Qed.

Lemma or_else_none {A} (a b : option A) :
  or_else a b = None -> a = None /\ b = None.
Proof. destruct a; simpl; [discriminate|auto]. Qed.

(** A read of [start], [end] or [filesize] that finds its field unset runs
    the bounds scan. *)
Lemma uncached_access_scans (p : property) (s s1 : LogFile) (v : value) :
  line_scan_property p = false ->
  cached p s = false ->
  access parse_dt p s = Ok v s1 ->
  from_stdin s = false /\
  exists r, _calculate_bounds parse_dt s = Ok r s1.
Proof.
  intros Hp Hc.
  destruct p; try discriminate; simpl in Hc;
    apply orb_false_iff in Hc; destruct Hc as [Hin Hf]; simpl;
    unfold start, end_, filesize; unfold bind at 1; unfold bind at 1;
    unfold get at 1; rewrite Hin; unfold bind at 1; unfold get at 1;
    rewrite Hf; simpl; unfold bind, ret, get;
    destruct (_calculate_bounds parse_dt s) as [r t|e t|];
    try discriminate; intros H; inversion H; subst;
    (split; [reflexivity|exists r; reflexivity]).
Qed.

(** Two reads of a property that both return give the same value, whether
    the second one scans or not. *)
Lemma repeated_access_value (p : property) (s s1 s2 : LogFile)
  (v w : value) :
  access parse_dt p s = Ok v s1 ->
  access parse_dt p s1 = Ok w s2 ->
  w = v.
Proof.
  intros H1 H2.
  pose proof (access_returns_stored parse_dt p s s1 v H1) as Hv.
  destruct (cached p s1) eqn:Hc1.
  - rewrite (access_cached parse_dt p s1 Hc1) in H2.
    inversion H2; subst. reflexivity.
  - assert (Hp : line_scan_property p = false).
    { destruct (line_scan_property p) eqn:Hp; [|reflexivity].
      rewrite (line_scan_cached parse_dt p s s1 v Hp H1) in Hc1.
      discriminate. }
    assert (Hc : cached p s = false).
    { destruct (cached p s) eqn:Hc; [|reflexivity].
      rewrite (access_cached parse_dt p s Hc) in H1.
      inversion H1; subst. congruence. }
    pose proof (access_returns_stored parse_dt p s1 s2 w H2) as Hw.
    destruct (uncached_access_scans p s s1 v Hp Hc H1) as [Hin [r Hb]].
    destruct (uncached_access_scans p s1 s2 w Hp Hc1 H2) as [Hin1 [r1 Hb1]].
    destruct (bounds_shape s s1 r Hin Hb)
      as [_ [Hct [Hfs [Hen Hst]]]].
    destruct (bounds_shape s1 s2 r1 Hin1 Hb1)
      as [Hin2 [Hct2 [Hfs2 [Hen2 Hst2]]]].
    rewrite (raw_end_content s s1 Hct) in Hen2.
    subst v w.
    destruct p; try discriminate; simpl in *; rewrite Hin1, Hin2;
      rewrite Hin1 in Hc1; simpl in Hc1.
    + destruct (_start s1) as [d|] eqn:Hs1; [discriminate|].
      destruct Hst as [[He1 _]|[e [st' [_ Hs]]]]; [|discriminate].
      rewrite He1 in Hen. symmetry in Hen.
      apply or_else_none in Hen. destruct Hen as [Hre _].
      rewrite Hre, He1 in Hen2. simpl in Hen2.
      destruct Hst2 as [[_ Hs2]|[e [st' [He2 _]]]]; [|congruence].
      rewrite Hs2. reflexivity.
    + destruct (_end s1) as [d|] eqn:He1; [discriminate|].
      symmetry in Hen. apply or_else_none in Hen. destruct Hen as [Hre _].
      rewrite Hre in Hen2. simpl in Hen2. rewrite Hen2. reflexivity.
    + unfold size in *. rewrite Hfs, Hfs2, Hct. reflexivity.
Qed.

End Repeat.

(** C5, amended: when a read of a lazy property returns, every later read
    that returns gives the identical value.  It leaves the object as it is
    (so no scan runs) provided the field the property tests is set to a
    true value: a datetime for [start] and [end], a non-zero size for
    [filesize], a non-zero count for [num_lines], [restarts] and [binary],
    or the stdin flag for the four guarded ones.  After a returning read of
    [num_lines], [restarts] or [binary] that is always so, hence the full
    line scan runs at most once.  When the tested field was left absent or
    zero, the second read runs the bounds scan once more, and still gives
    the value of the first read. *)
Theorem second_access_from_cache :
  forall (parse_dt : str -> option datetime) (p : property)
         (s s1 : LogFile) (v : value),
    access parse_dt p s = Ok v s1 ->
    (forall (w : value) (s2 : LogFile),
       access parse_dt p s1 = Ok w s2 -> w = v) /\
    (cached p s1 = true -> access parse_dt p s1 = Ok v s1) /\
    (line_scan_property p = true -> cached p s1 = true) /\
    (cached p s1 = false ->
     forall (w : value) (s2 : LogFile),
       access parse_dt p s1 = Ok w s2 ->
       w = v /\ bounds_scans s2 = S (bounds_scans s1)).
Proof.
  intros parse_dt p s s1 v H.
  split; [|split; [|split]].
  - intros w s2 H2. apply (repeated_access_value parse_dt p s s1 s2 v w H H2).
  - intros Hc. rewrite (access_cached parse_dt p s1 Hc).
    rewrite (access_returns_stored parse_dt p s s1 v H). reflexivity.
  - intros Hp. apply (line_scan_cached parse_dt p s s1 v Hp H).
  - intros Hc w s2 H2.
    split; [apply (repeated_access_value parse_dt p s s1 s2 v w H H2)|].
    destruct (line_scan_property p) eqn:Hp.
    + rewrite (line_scan_cached parse_dt p s s1 v Hp H) in Hc. discriminate.
    + destruct (uncached_access_scans parse_dt p s1 s2 w Hp Hc H2)
        as [_ [r Hb]].
      apply (bounds_frame parse_dt _ _ _ Hb).
Qed.

Lemma second_access_from_cache_witness :
  let s1 := state_after (access scenario_parse Pstart three_line_log)
                        three_line_log in
  access scenario_parse Pstart s1
  = Ok (Vdatetime (Some (mkdt 2021 1 1 0 0 0 0))) s1.
Proof.
  intros s1.
  apply (proj1 (proj2 (second_access_from_cache scenario_parse Pstart
                         three_line_log s1
                         (Vdatetime (Some (mkdt 2021 1 1 0 0 0 0)))
                         ltac:(vm_compute; reflexivity)))).
  vm_compute. reflexivity.
Defined.

(** ** Lines and line breaks *)

Lemma lines_nil (x : str) : lines x = [] -> x = [].
Proof.
  destruct x as [|c x]; simpl; [reflexivity|].
  destruct (is_nl c); [discriminate|].
  destruct (lines x); discriminate.
Qed.

Lemma lines_hd (x l : str) (ls : list str) :
  lines x = l :: ls -> take_line x = l.
Proof.
  revert l ls; induction x as [|c x IH]; intros l ls; simpl;
    [discriminate|].
  destruct (is_nl c).
  - intros H; inversion H; reflexivity.
  - destruct (lines x) as [|l0 ls0] eqn:E.
    + apply lines_nil in E. subst x. intros H; inversion H; reflexivity.
    + intros H; inversion H; subst. rewrite (IH _ _ eq_refl).
      reflexivity.
Qed.

(** Every line of [x] is the line read at some offset of [x]. *)
Lemma lines_read_at (x : str) :
  forall l, In l (lines x) -> exists q : nat, l = take_line (skipn q x).
Proof.
  induction x as [|c x IH]; intros l; simpl; [tauto|].
  destruct (is_nl c) eqn:Ec.
  - intros [H|H].
    + exists 0%nat. simpl. rewrite Ec. auto.
    + destruct (IH l H) as [q Hq]. exists (S q). exact Hq.
  - destruct (lines x) as [|l0 ls0] eqn:E.
    + intros [H|[]]. exists 0%nat. simpl. rewrite Ec.
      apply lines_nil in E. subst x. auto.
    + intros [H|H].
      * exists 0%nat. simpl. rewrite Ec.
        rewrite (lines_hd x l0 ls0 E). auto.
      * destruct (IH l (or_intror H)) as [q Hq]. exists (S q). exact Hq.
Qed.

Lemma take_line_length (x : str) :
  x <> [] -> (1 <= List.length (take_line x) <= List.length x)%nat.
Proof.
  induction x as [|c x IH]; [congruence|]. intros _. simpl.
  destruct (is_nl c); simpl; [lia|].
  destruct x as [|c' x]; [simpl; lia|].
  assert (H : c' :: x <> []) by discriminate.
  specialize (IH H). simpl in *. lia.
Qed.

(** [rfind] answers [-1] or an index inside the string. *)
Lemma rfind_from_range (s : str) :
  forall i found,
    rfind_from i s found = found \/
    (i <= rfind_from i s found < i + len s).
Proof.
  induction s as [|c s IH]; intros i found; simpl; [auto|].
  unfold len in *. simpl List.length. rewrite Nat2Z.inj_succ.
  destruct (is_nl c).
  - right. destruct (IH (i + 1) i) as [H|H]; lia.
  - destruct (IH (i + 1) found) as [H|H]; [auto|right; lia].
Qed.

Lemma rfind_nl_range (s : str) : -1 <= rfind_nl s < Z.max 0 (len s).
Proof.
  unfold rfind_nl. pose proof (len_nonneg s).
  destruct (rfind_from_range s 0 (-1)) as [H1|H1]; lia.
Qed.

(** ** The line locator *)

Lemma newline_index_range (prev : bool) (buff : str) :
  -1 <= newline_index prev buff < Z.max 0 (len buff).
Proof.
  unfold newline_index. destruct prev; [|apply rfind_nl_range].
  pose proof (rfind_nl_range buff) as H1.
  pose proof (rfind_nl_range (slice_to buff (rfind_nl buff))) as H2.
  assert (Hl : len (slice_to buff (rfind_nl buff)) <= len buff).
  { unfold slice_to, len.
    destruct (rfind_nl buff <? 0); rewrite length_firstn; lia. }
  lia.
Qed.

Lemma window_length (fh : FileHandle) :
  0 <= pos fh -> len (window fh) <= Z.min (pos fh) 15000.
Proof.
  intros Hp. unfold window, len. rewrite length_firstn. lia.
Qed.

Lemma boundary_range (prev : bool) (fh : FileHandle) (b : Z) :
  0 <= pos fh -> boundary prev fh = Some b -> 0 <= b < pos fh.
Proof.
  intros Hp. unfold boundary.
  pose proof (newline_index_range prev (window fh)) as Hr.
  pose proof (window_length fh Hp) as Hw.
  destruct (newline_index prev (window fh) =? -1) eqn:E; [discriminate|].
  apply Z.eqb_neq in E. intros H; inversion H; subst. lia.
Qed.

Section Locator.

Variable parse_dt : str -> option datetime.

#[local] Arguments find_loop : simpl never.

Lemma _find_curr_line_spec (prev : bool) (s : LogFile) :
  seekable (filehandle s) = true ->
  0 <= pos (filehandle s) ->
  _find_curr_line parse_dt prev s =
  match boundary prev (filehandle s) with
  | None => Ok None s
  | Some b =>
      let s' := with_fh s (set_pos (filehandle s) b) in
      find_loop parse_dt (S (List.length (rest (filehandle s')))) prev s'
  end.
Proof.
  destruct s as [[nm c p sk] sd st en fs n r b0 bs lsn]. simpl.
  intros -> Hp.
  pose proof (newline_index_range prev
                (window (mkFH nm c p true))) as Hr.
  pose proof (window_length (mkFH nm c p true) Hp) as Hw.
  unfold _find_curr_line, boundary.
  unfold bind, tell, seek, read, consume, modify, get, ret, with_fh, set_pos,
    rest, size; simpl.
  replace (p + - Z.min p 15000 <? 0) with false
    by (symmetry; apply Z.ltb_ge; lia).
  simpl.
  replace (p <? 0) with false by (symmetry; apply Z.ltb_ge; lia).
  simpl.
  fold (newline_index prev
         (firstn (Z.to_nat (Z.min p 15000))
                 (skipn (Z.to_nat (p + - Z.min p 15000)) c))).
  replace (p + - Z.min p 15000) with (p - Z.min p 15000) by lia.
  change (firstn (Z.to_nat (Z.min p 15000))
                 (skipn (Z.to_nat (p - Z.min p 15000)) c))
    with (window (mkFH nm c p true)) in *.
  destruct (newline_index prev (window (mkFH nm c p true)) =? -1) eqn:E.
  - reflexivity.
  - apply Z.eqb_neq in E. simpl in Hw. simpl.
    replace (p + (newline_index prev (window (mkFH nm c p true))
                  - Z.min p 15000) <? 0) with false
      by (symmetry; apply Z.ltb_ge; lia).
    simpl. reflexivity.
Qed.

End Locator.

(** *** Where the locator starts to read *)

Lemma is_nl_eq (c : ascii) : is_nl c = true -> c = nl.
Proof. unfold is_nl. apply Ascii.eqb_eq. Qed.

Lemma rfind_from_hit (s : str) :
  forall i found,
    found < i ->
    rfind_from i s found = found \/
    (i <= rfind_from i s found /\
     nth_error s (Z.to_nat (rfind_from i s found - i)) = Some nl).
Proof.
  induction s as [|c s IH]; intros i found Hlt; simpl; [auto|].
  destruct (is_nl c) eqn:Ec.
  - right. destruct (IH (i + 1) i ltac:(lia)) as [H|[H1 H2]].
    + rewrite H. split; [lia|]. rewrite Z.sub_diag. simpl.
      rewrite (is_nl_eq c Ec). reflexivity.
    + split; [lia|].
      replace (Z.to_nat (rfind_from (i + 1) s i - i))
        with (S (Z.to_nat (rfind_from (i + 1) s i - (i + 1)))) by lia.
      exact H2.
  - destruct (IH (i + 1) found ltac:(lia)) as [H|[H1 H2]]; [auto|].
    right. split; [lia|].
    replace (Z.to_nat (rfind_from (i + 1) s found - i))
      with (S (Z.to_nat (rfind_from (i + 1) s found - (i + 1)))) by lia.
    exact H2.
Qed.

Lemma rfind_nl_hit (s : str) :
  rfind_nl s <> -1 -> nth_error s (Z.to_nat (rfind_nl s)) = Some nl.
Proof.
  unfold rfind_nl. intros Hne.
  destruct (rfind_from_hit s 0 (-1) ltac:(lia)) as [H|[_ H]];
    [congruence|].
  rewrite Z.sub_0_r in H. exact H.
Qed.

Lemma newline_index_hit (prev : bool) (buff : str) :
  newline_index prev buff <> -1 ->
  nth_error buff (Z.to_nat (newline_index prev buff)) = Some nl.
Proof.
  unfold newline_index. destruct prev; [|apply rfind_nl_hit].
  intros Hne. pose proof (rfind_nl_hit _ Hne) as H.
  unfold slice_to in *.
  destruct (rfind_nl buff <? 0); rewrite nth_error_firstn in H;
    match type of H with
    | (if ?c then _ else _) = _ => destruct c; [exact H|discriminate]
    end.
Qed.

Lemma skipn_at {A} (l : list A) (n : nat) (x : A) :
  nth_error l n = Some x -> exists l', skipn n l = x :: l'.
Proof.
  revert l; induction n as [|n IH]; intros [|y l]; simpl; try discriminate.
  - intros H; inversion H; eauto.
  - apply IH.
Qed.

(** The offset the locator seeks to holds the line break itself, so the
    first line it reads there is that line break alone. *)
Lemma boundary_on_line_break (prev : bool) (fh : FileHandle) (b : Z) :
  0 <= pos fh ->
  boundary prev fh = Some b ->
  take_line (skipn (Z.to_nat b) (content fh)) = [nl].
Proof.
  intros Hp. unfold boundary.
  pose proof (newline_index_range prev (window fh)) as Hr.
  pose proof (newline_index_hit prev (window fh)) as Hh.
  remember (newline_index prev (window fh)) as np eqn:Enp.
  destruct (np =? -1) eqn:E; [discriminate|].
  apply Z.eqb_neq in E. specialize (Hh E).
  intros H; inversion H; subst b. clear H.
  unfold window in Hh. rewrite nth_error_firstn in Hh.
  match type of Hh with
  | (if ?c then _ else _) = _ => destruct c; [|discriminate]
  end.
  rewrite nth_error_skipn in Hh.
  replace (Z.to_nat (pos fh + (np - Z.min (pos fh) 15000)))
    with (Z.to_nat (pos fh - Z.min (pos fh) 15000) + Z.to_nat np)%nat by lia.
  destruct (skipn_at _ _ _ Hh) as [l' Hl]. rewrite Hl. simpl.
  reflexivity.
Qed.

(** One round of the loop in previous mode. *)
Lemma find_loop_prev (parse_dt : str -> option datetime) (fuel : nat)
  (s : LogFile) :
  find_loop parse_dt (S fuel) true s =
  let line := take_line (rest (filehandle s)) in
  Ok (if truthy (parse_dt line) then Some (mkLogLine line) else None)
     (with_fh s (set_pos (filehandle s) (pos (filehandle s) + len line))).
Proof.
  simpl. unfold bind, readline, get, consume, modify, ret, datetime_of.
  simpl.
  destruct (truthy (parse_dt (take_line (rest (filehandle s)))));
    reflexivity.
Qed.

(** C7, counterexample: the boundary found in previous mode is the line
    break that ends the first line; a timestamped line follows further on,
    but the locator reads one line, finds no timestamp in it and answers
    "not found". *)
Lemma prev_mode_gives_up :
  ~ prev_scans_forward scenario_parse before_third_line.
Proof.
  intros H.
  pose (t := state_after (_find_curr_line scenario_parse true
                            before_third_line) before_third_line).
  assert (Hb : boundary true (filehandle before_third_line) = Some 1)
    by (vm_compute; reflexivity).
  assert (Hr : _find_curr_line scenario_parse true before_third_line
               = Ok None t) by (vm_compute; reflexivity).
  specialize (H 1 None t Hb Hr). vm_compute in H. discriminate.
Qed.

(** C7, amended: in previous mode the locator never scans forward.  (1)
    Its read loop makes exactly one round from wherever the stream stands:
    one line is read, its record is answered if it has a timestamp, and
    "not found" is answered at once if it has none, whatever follows.  (2)
    On a seekable stream the locator answers "not found" and leaves the
    position where it was when the window before the position holds no
    line break before its last one; otherwise it seeks to an offset before
    the position and makes that one round there, so exactly one line is
    read and no line after it can be answered.  Which offset the seek
    reaches is not stated. *)
Theorem prev_mode_reads_one_line :
  (forall (parse_dt : str -> option datetime) (fuel : nat) (s : LogFile),
     find_loop parse_dt (S fuel) true s =
     let line := take_line (rest (filehandle s)) in
     Ok (if truthy (parse_dt line) then Some (mkLogLine line) else None)
        (with_fh s
           (set_pos (filehandle s) (pos (filehandle s) + len line)))) /\
  (forall (parse_dt : str -> option datetime) (s : LogFile),
     seekable (filehandle s) = true ->
     0 <= pos (filehandle s) ->
     (newline_index true (window (filehandle s)) = -1 ->
      _find_curr_line parse_dt true s = Ok None s) /\
     (newline_index true (window (filehandle s)) <> -1 ->
      exists q : Z,
        0 <= q < pos (filehandle s) /\
        let line := take_line (skipn (Z.to_nat q) (content (filehandle s))) in
        _find_curr_line parse_dt true s =
        Ok (if truthy (parse_dt line) then Some (mkLogLine line) else None)
           (with_fh s (set_pos (filehandle s) (q + len line))))).
Proof.
  split; [exact find_loop_prev|].
  intros parse_dt s Hsk Hp.
  rewrite (_find_curr_line_spec parse_dt true s Hsk Hp).
  pose proof (boundary_range true (filehandle s)) as Hr.
  unfold boundary in *. cbv zeta in *.
  destruct (newline_index true (window (filehandle s)) =? -1) eqn:E.
  - apply Z.eqb_eq in E. split; [reflexivity|congruence].
  - apply Z.eqb_neq in E. split; [congruence|]. intros _.
    eexists. split; [apply (Hr _ Hp eq_refl)|].
    cbv zeta. rewrite find_loop_prev. reflexivity.
Qed.

Lemma prev_mode_reads_one_line_witness :
  (exists q : Z,
     0 <= q < pos (filehandle before_third_line) /\
     let line := take_line (skipn (Z.to_nat q)
                              (content (filehandle before_third_line))) in
     _find_curr_line scenario_parse true before_third_line =
     Ok (if truthy (scenario_parse line) then Some (mkLogLine line)
         else None)
        (with_fh before_third_line
           (set_pos (filehandle before_third_line) (q + len line)))) /\
  find_loop scenario_parse 1 true before_third_line
  = Ok (Some (mkLogLine (lit (text ["[2021-01-01T00:00:00] m"]%string))))
       (with_fh before_third_line
          (set_pos (filehandle before_third_line) 28)).
Proof.
  split.
  - apply (proj2 (proj2 prev_mode_reads_one_line scenario_parse
                    before_third_line eq_refl
                    ltac:(vm_compute; discriminate))).
    vm_compute. discriminate.
  - rewrite (proj1 prev_mode_reads_one_line scenario_parse 0%nat
               before_third_line).
    vm_compute. reflexivity.
Defined.

(** Since the boundary holds the line break itself, the one line read in
    previous mode is a bare line break: with a parser that finds no
    timestamp in it, previous mode never answers a record. *)
Lemma prev_mode_never_finds (parse_dt : str -> option datetime)
  (s : LogFile) :
  seekable (filehandle s) = true ->
  0 <= pos (filehandle s) ->
  parse_dt [nl] = None ->
  exists t, _find_curr_line parse_dt true s = Ok None t.
Proof.
  intros Hsk Hp Hnl. rewrite (_find_curr_line_spec parse_dt true s Hsk Hp).
  destruct (boundary true (filehandle s)) as [b|] eqn:Hb.
  - cbv zeta. rewrite find_loop_prev. unfold rest. simpl.
    rewrite (boundary_on_line_break true (filehandle s) b Hp Hb).
    rewrite Hnl. simpl. eauto.
  - eauto.
Qed.

(** ** The loops of the locator and of the bisection *)

(** One round of the locator's loop. *)
Lemma find_loop_S (parse_dt : str -> option datetime) (fuel : nat)
  (prev : bool) (s : LogFile) :
  find_loop parse_dt (S fuel) prev s =
  let line := take_line (rest (filehandle s)) in
  let s' := with_fh s (set_pos (filehandle s)
                               (pos (filehandle s) + len line)) in
  if truthy (parse_dt line) then Ok (Some (mkLogLine line)) s'
  else if prev then Ok None s'
  else match line with
       | [] => Ok None s'
       | _ :: _ => find_loop parse_dt fuel prev s'
       end.
Proof.
  simpl. unfold bind, readline, get, consume, modify, ret, datetime_of.
  simpl.
  destruct (truthy (parse_dt (take_line (rest (filehandle s)))));
    [reflexivity|].
  destruct prev; [reflexivity|].
  destruct (take_line (rest (filehandle s))); reflexivity.
Qed.

Section FastForward.

Variable parse_dt : str -> option datetime.

#[local] Arguments find_loop : simpl never.
#[local] Arguments bisect : simpl never.

Lemma first_dt_none (ls : list str) :
  (forall l, In l ls -> parse_dt l = None) -> first_dt parse_dt ls = None.
Proof.
  induction ls as [|l ls IH]; intros H; simpl; [reflexivity|].
  rewrite (H l (or_introl eq_refl)). apply IH.
  intros l' Hl'. apply H. right. exact Hl'.
Qed.

Lemma no_timestamps_lines (c : str) (n : nat) :
  no_timestamps parse_dt c ->
  forall l, In l (lines (skipn n c)) -> parse_dt l = None.
Proof.
  intros H l Hl. destruct (lines_read_at _ l Hl) as [q Hq].
  subst l. rewrite skipn_skipn. apply H.
Qed.

Lemma rest_advance (fh : FileHandle) (l : str) :
  0 <= pos fh ->
  rest (set_pos fh (pos fh + len l)) = skipn (List.length l) (rest fh).
Proof.
  intros Hp. unfold rest, set_pos, len. simpl. rewrite skipn_skipn.
  f_equal. lia.
Qed.

(** In current mode, on a file without timestamps, the loop runs to the
    end of the input and the locator answers "not found". *)
Lemma find_loop_none (fuel : nat) :
  forall s : LogFile,
    no_timestamps parse_dt (content (filehandle s)) ->
    0 <= pos (filehandle s) ->
    (List.length (rest (filehandle s)) < fuel)%nat ->
    exists t, find_loop parse_dt fuel false s = Ok None t.
Proof.
  induction fuel as [|fuel IH]; intros s Hno Hp Hfuel; [lia|].
  rewrite find_loop_S. cbv zeta.
  assert (Hl : parse_dt (take_line (rest (filehandle s))) = None)
    by apply Hno.
  rewrite Hl. simpl truthy. cbv iota.
  destruct (take_line (rest (filehandle s))) as [|c l] eqn:El.
  - eauto.
  - apply IH.
    + exact Hno.
    + simpl. pose proof (len_nonneg (c :: l)). lia.
    + simpl filehandle. rewrite rest_advance by exact Hp.
      rewrite length_skipn.
      assert (Hne : rest (filehandle s) <> [])
        by (intros E; rewrite E in El; discriminate).
      pose proof (take_line_length _ Hne) as Hlen. rewrite El in Hlen.
      lia.
Qed.

Lemma find_curr_line_none (s : LogFile) :
  seekable (filehandle s) = true ->
  0 <= pos (filehandle s) ->
  no_timestamps parse_dt (content (filehandle s)) ->
  exists t, _find_curr_line parse_dt false s = Ok None t.
Proof.
  intros Hsk Hp Hno. rewrite (_find_curr_line_spec parse_dt false s Hsk Hp).
  destruct (boundary false (filehandle s)) as [b|] eqn:Hb; [|eauto].
  cbv zeta. apply find_loop_none.
  - exact Hno.
  - simpl. apply (boundary_range false _ b Hp) in Hb. lia.
  - lia.
Qed.

(** The bisection loop is left at once when the step is within the
    threshold. *)
Lemma bisect_converged (fuel : nat) (start_dt : datetime) (step_size : Z)
  (ll : option LogLine) (s : LogFile) :
  Z.abs step_size <= 100 ->
  bisect parse_dt fuel start_dt step_size ll s = Ok ll s.
Proof.
  intros H. destruct fuel; unfold bisect;
    replace (Z.abs step_size >? 100) with false
      by (symmetry; rewrite Z.gtb_ltb; apply Z.ltb_ge; lia);
    reflexivity.
Qed.

(** It is left after the first round when the locator finds no record. *)
Lemma bisect_first_absent (start_dt : datetime) (step_size : Z)
  (ll : option LogLine) (s t : LogFile) :
  100 < Z.abs step_size ->
  (seek (ceil_half step_size) 1;; _find_curr_line parse_dt false) s
  = Ok None t ->
  bisect parse_dt (Z.to_nat (Z.abs step_size)) start_dt step_size ll s
  = Ok None t.
Proof.
  intros Hgt Hloc.
  destruct (Z.to_nat (Z.abs step_size)) as [|fuel] eqn:Ef; [lia|].
  unfold bisect; fold bisect.
  replace (Z.abs step_size >? 100) with true
    by (symmetry; rewrite Z.gtb_ltb; apply Z.ltb_lt; lia).
  revert Hloc. unfold bind.
  destruct (seek (ceil_half step_size) 1 s) as [u s2|e s2|];
    try discriminate.
  destruct (_find_curr_line parse_dt false s2) as [r s3|e s3|];
    try discriminate.
  intros H; inversion H; subst. reflexivity.
Qed.

(** When the bisection ends without a record, [fast_forward] returns with
    the object as the bisection left it. *)
Lemma fast_forward_no_record (start_dt : datetime) (s s1 t : LogFile)
  (sz : Z) :
  from_stdin s = false ->
  filesize parse_dt s = Ok (Some sz) s1 ->
  bisect parse_dt (Z.to_nat (Z.abs sz)) start_dt sz None s1 = Ok None t ->
  fast_forward parse_dt start_dt s = Ok tt t.
Proof.
  intros Hin Hfs Hb. unfold fast_forward.
  unfold bind at 1, get. rewrite Hin.
  unfold bind at 1. rewrite Hfs.
  unfold bind at 1. rewrite Hb. reflexivity.
Qed.

(** What [filesize] answers on a new object: the size of the file, with the
    stream back at offset 0. *)
Lemma filesize_fresh (fh : FileHandle) (v : option Z) (s1 : LogFile) :
  seekable fh = true ->
  str_eqb (name fh) (lit "<stdin>") = false ->
  filesize parse_dt (__init__ fh) = Ok v s1 ->
  v = Some (size fh) /\ pos (filehandle s1) = 0 /\
  content (filehandle s1) = content fh /\
  seekable (filehandle s1) = true.
Proof.
  intros Hsk Hnm. unfold filesize.
  unfold bind at 1, get. unfold __init__ at 1. simpl from_stdin.
  rewrite Hnm. unfold bind at 1, get. simpl _filesize. simpl.
  unfold bind at 1. unfold bind at 1.
  rewrite _calculate_bounds_spec by (simpl; assumption).
  unfold bind at 1.
  destruct (rollover (raw_bounds parse_dt (__init__ fh))) as [u t|e t|] eqn:Hr;
    try discriminate.
  apply rollover_frame in Hr. destruct Hr as [Hfh [_ Hfs]].
  unfold bind, seek, ret, get. rewrite Hfh. simpl. rewrite Hsk. simpl.
  intros H; inversion H; subst; simpl. rewrite Hfs. simpl. auto.
Qed.

(** On a new object over a file without timestamps the bounds scan
    returns. *)
Lemma filesize_fresh_no_timestamps (fh : FileHandle) :
  seekable fh = true ->
  str_eqb (name fh) (lit "<stdin>") = false ->
  no_timestamps parse_dt (content fh) ->
  exists s1, filesize parse_dt (__init__ fh) = Ok (Some (size fh)) s1.
Proof.
  intros Hsk Hnm Hno. unfold filesize.
  unfold bind at 1, get. unfold __init__ at 1. simpl from_stdin.
  rewrite Hnm. unfold bind at 1, get. simpl _filesize. simpl.
  unfold bind at 1. unfold bind at 1.
  rewrite _calculate_bounds_spec by (simpl; assumption).
  unfold raw_bounds, raw_start, raw_end, tail_window, rest. simpl.
  rewrite (first_dt_none _ (no_timestamps_lines _ _ Hno)).
  rewrite first_dt_none.
  - unfold bind, rollover, seek, ret, get. simpl. rewrite Hsk. simpl. eauto.
  - intros l Hl. apply in_rev in Hl.
    apply (no_timestamps_lines _ _ Hno l Hl).
Qed.

End FastForward.

(** ** The fuel always suffices

    The [while] loops are bounded by fuel that the methods compute from the
    file and the position; the lemmas below show that the bound is never
    reached on a seekable file, so that a method either returns or raises a
    Python exception. *)

Lemma settled_trans {A} (s t : LogFile) (r : res A) :
  same_file s t -> settled t r -> settled s r.
Proof.
  unfold settled, same_file. destruct r; auto.
  intros [H1 [H2 H3]] [H4 [H5 H6]]. repeat split; congruence.
Qed.

Section Totality.

Variable parse_dt : str -> option datetime.

#[local] Arguments find_loop : simpl never.

Lemma find_loop_ok (prev : bool) (fuel : nat) :
  forall s : LogFile,
    0 <= pos (filehandle s) ->
    (List.length (rest (filehandle s)) < fuel)%nat ->
    exists r t, find_loop parse_dt fuel prev s = Ok r t /\ same_file s t.
Proof.
  induction fuel as [|fuel IH]; intros s Hp Hfuel; [lia|].
  rewrite find_loop_S. cbv zeta.
  pose proof (len_nonneg (take_line (rest (filehandle s)))) as Hlen.
  assert (Hsame : same_file s
            (with_fh s (set_pos (filehandle s)
               (pos (filehandle s) + len (take_line (rest (filehandle s)))))))
    by (unfold same_file; simpl; repeat split; lia).
  destruct (truthy (parse_dt (take_line (rest (filehandle s)))));
    [eauto|].
  destruct prev; [eauto|].
  destruct (take_line (rest (filehandle s))) as [|c l] eqn:El; [eauto|].
  destruct (IH (with_fh s (set_pos (filehandle s)
                  (pos (filehandle s) + len (c :: l)))))
    as [r [t [Hr [H1 [H2 H3]]]]].
  - simpl. lia.
  - simpl filehandle. rewrite rest_advance by exact Hp.
    rewrite length_skipn.
    assert (Hne : rest (filehandle s) <> [])
      by (intros E; rewrite E in El; discriminate).
    pose proof (take_line_length _ Hne) as Hl. rewrite El in Hl. lia.
  - exists r, t. split; [exact Hr|].
    unfold same_file. simpl in H1, H2. auto.
Qed.

(** The locator returns on every seekable stream; in previous mode it does
    not leave the stream further on than it found it. *)
Lemma find_curr_line_ok (prev : bool) (s : LogFile) :
  seekable (filehandle s) = true ->
  0 <= pos (filehandle s) ->
  exists r t,
    _find_curr_line parse_dt prev s = Ok r t /\ same_file s t /\
    (prev = true -> pos (filehandle t) <= pos (filehandle s)).
Proof.
  intros Hsk Hp. rewrite (_find_curr_line_spec parse_dt prev s Hsk Hp).
  destruct (boundary prev (filehandle s)) as [b|] eqn:Hb.
  - pose proof (boundary_range prev _ b Hp Hb) as Hr.
    cbv zeta. destruct prev.
    + rewrite find_loop_prev. cbv zeta. unfold rest. simpl.
      rewrite (boundary_on_line_break true _ b Hp Hb).
      do 2 eexists. split; [reflexivity|].
      unfold same_file, len. simpl. repeat split; lia.
    + destruct (find_loop_ok false
                  (S (List.length (rest (filehandle
                     (with_fh s (set_pos (filehandle s) b))))))
                  (with_fh s (set_pos (filehandle s) b)))
        as [r [t [H1 [H2 [H3 H4]]]]]; [simpl; lia|lia|].
      exists r, t. split; [exact H1|]. split; [|discriminate].
      unfold same_file. simpl in H2, H3. auto.
  - exists None, s. split; [reflexivity|].
    unfold same_file. repeat split; auto. lia.
Qed.

Lemma walk_back_ok (start_dt : datetime) (fuel : nat) :
  forall (s : LogFile) (ll : option LogLine),
    seekable (filehandle s) = true ->
    0 <= pos (filehandle s) ->
    (Z.to_nat (pos (filehandle s)) < fuel)%nat ->
    walk_back parse_dt fuel start_dt ll s <> OutOfFuel.
Proof.
  induction fuel as [|fuel IH]; intros s ll Hsk Hp Hfuel; [lia|].
  destruct ll as [l|]; simpl; [|discriminate].
  unfold bind at 1, tell. rewrite Hsk. simpl.
  destruct (pos (filehandle s) >=? 2) eqn:Hge; [|discriminate].
  unfold bind at 1, ge_start.
  destruct (datetime_of parse_dt l) as [d|]; [|discriminate].
  unfold ret at 1. destruct (dt_geb d start_dt); [|discriminate].
  unfold bind at 1, seek. rewrite Hsk. simpl.
  apply Z.geb_le in Hge.
  replace (pos (filehandle s) + -2 <? 0) with false
    by (symmetry; apply Z.ltb_ge; lia).
  unfold bind at 1.
  destruct (find_curr_line_ok true
              (with_fh s (set_pos (filehandle s) (pos (filehandle s) + -2))))
    as [r [t [H1 [[H2 [H3 H4]] H5]]]]; [exact Hsk|simpl; lia|].
  rewrite H1. specialize (H5 eq_refl). simpl in H2, H5.
  apply IH; [congruence|exact H4|lia].
Qed.

Lemma ceil_half_shrinks (step_size : Z) :
  100 < Z.abs step_size -> Z.abs (ceil_half step_size) < Z.abs step_size.
Proof.
  intros H. unfold ceil_half.
  pose proof (Z.div_mod (step_size + 1) 2 ltac:(lia)) as Hd.
  pose proof (Z.mod_pos_bound (step_size + 1) 2 ltac:(lia)) as Hm.
  lia.
Qed.

Lemma bisect_ok (start_dt : datetime) (fuel : nat) :
  forall (s : LogFile) (step_size : Z) (ll : option LogLine),
    seekable (filehandle s) = true ->
    0 <= pos (filehandle s) ->
    (Z.to_nat (Z.abs step_size) <= fuel)%nat ->
    settled s (bisect parse_dt fuel start_dt step_size ll s).
Proof.
  induction fuel as [|fuel IH]; intros s step_size ll Hsk Hp Hfuel.
  - simpl.
    replace (Z.abs step_size >? 100) with false
      by (symmetry; rewrite Z.gtb_ltb; apply Z.ltb_ge; lia).
    unfold ret, settled, same_file; auto.
  - simpl. destruct (Z.abs step_size >? 100) eqn:Hgt;
      [|unfold ret, settled, same_file; auto].
    rewrite Z.gtb_ltb in Hgt. apply Z.ltb_lt in Hgt.
    pose proof (ceil_half_shrinks step_size Hgt) as Hshr.
    unfold bind at 1, seek. rewrite Hsk. simpl.
    destruct (pos (filehandle s) + ceil_half step_size <? 0) eqn:Hneg;
      [exact I|].
    apply Z.ltb_ge in Hneg.
    unfold bind at 1.
    destruct (find_curr_line_ok false
                (with_fh s (set_pos (filehandle s)
                   (pos (filehandle s) + ceil_half step_size))))
      as [r [t [H1 [[H2 [H3 H4]] _]]]]; [exact Hsk|simpl; lia|].
    rewrite H1. simpl in H2, H3.
    assert (Hst : same_file s t) by (unfold same_file; auto).
    destruct r as [l|]; [|exact Hst].
    unfold bind at 1, ge_start.
    destruct (datetime_of parse_dt l) as [d|]; [|exact I].
    unfold ret at 1.
    destruct (dt_geb d start_dt);
      apply (settled_trans s t _ Hst); apply IH;
      try congruence; try exact H4; lia.
Qed.

(** [fast_forward] on a seekable file returns or raises: the fuel of its
    loops is never used up. *)
Lemma fast_forward_ok (start_dt : datetime) (s : LogFile) :
  from_stdin s = false ->
  seekable (filehandle s) = true ->
  0 <= pos (filehandle s) ->
  fast_forward parse_dt start_dt s <> OutOfFuel.
Proof.
  intros Hin Hsk Hp. unfold fast_forward.
  unfold bind at 1, get. rewrite Hin.
  unfold bind at 1.
  destruct (filesize parse_dt s) as [v s1|e s1|] eqn:Hfs;
    [|discriminate|].
  - assert (Hs1 : same_file s s1).
    { revert Hfs. unfold filesize. unfold bind at 1, get. rewrite Hin.
      unfold bind at 1, get. unfold bind at 1.
      destruct (truthy_int (_filesize s)); simpl.
      - unfold ret, get. intros H; inversion H; subst.
        unfold same_file; auto.
      - unfold bind at 1.
        destruct (_calculate_bounds parse_dt s) as [r t|e t|] eqn:Hb;
          try discriminate.
        destruct (_calculate_bounds_position parse_dt s t r Hin Hsk Hb)
          as [H1 [H2 H3]].
        unfold ret, get. intros H; inversion H; subst.
        unfold same_file. rewrite H1, H2, H3. repeat split; auto. lia. }
    destruct Hs1 as [H1 [H2 H3]].
    destruct v as [max_mark|]; [|discriminate].
    unfold bind at 1.
    pose proof (bisect_ok start_dt (Z.to_nat (Z.abs max_mark)) s1 max_mark
                  None ltac:(congruence) H3 ltac:(lia)) as Hb.
    destruct (bisect parse_dt (Z.to_nat (Z.abs max_mark)) start_dt max_mark
                None s1) as [ll t|e t|]; [|discriminate|contradiction].
    destruct Hb as [Hb1 [Hb2 Hb3]].
    destruct ll as [l|]; [|discriminate].
    unfold bind, get. apply walk_back_ok; [congruence|exact Hb3|lia].
  - revert Hfs. unfold filesize. unfold bind at 1, get. rewrite Hin.
    unfold bind at 1, get. unfold bind at 1.
    destruct (truthy_int (_filesize s)); simpl;
      [unfold ret, get; discriminate|].
    unfold bind at 1.
    destruct (_calculate_bounds parse_dt s) as [r t|e t|] eqn:Hb;
      try (unfold ret, get; discriminate).
    intros _.
    rewrite (_calculate_bounds_spec parse_dt s Hin Hsk) in Hb.
    revert Hb. unfold bind at 1.
    destruct (rollover (raw_bounds parse_dt s)) as [u t'|e' t'|] eqn:Hr.
    + unfold bind, seek, ret.
      destruct (negb (seekable (filehandle t'))); [discriminate|].
      simpl. discriminate.
    + discriminate.
    + exfalso. revert Hr. unfold rollover, set_start, modify.
      destruct (_end (raw_bounds parse_dt s)) as [e|],
               (_start (raw_bounds parse_dt s)) as [st|]; try discriminate.
      destruct (dt_ltb e st); try discriminate.
      destruct (replace_year st (year st - 1)); discriminate.
Qed.

(** The stdin path: every round takes a line from the input or ends with
    [StopIteration]. *)
Lemma skip_loop_ok (start_dt : datetime) (fuel : nat) :
  forall (s : LogFile) (ll : option LogLine),
    0 <= pos (filehandle s) ->
    (List.length (rest (filehandle s)) < fuel)%nat ->
    skip_loop parse_dt fuel start_dt ll s <> OutOfFuel.
Proof.
  induction fuel as [|fuel IH]; intros s ll Hp Hfuel; [lia|].
  simpl.
  match goal with |- context [if ?c then _ else _] => destruct c end;
    [discriminate|].
  unfold bind at 1, next. unfold bind at 1, get.
  destruct (take_line (rest (filehandle s))) as [|c l] eqn:El;
    [discriminate|].
  unfold bind at 1, consume, modify. unfold ret at 1.
  apply IH.
  - simpl. pose proof (len_nonneg (c :: l)). lia.
  - simpl filehandle. rewrite rest_advance by exact Hp.
    rewrite length_skipn.
    assert (Hne : rest (filehandle s) <> [])
      by (intros E; rewrite E in El; discriminate).
    pose proof (take_line_length _ Hne) as Hl. rewrite El in Hl. lia.
Qed.

Lemma fast_forward_stdin_ok (start_dt : datetime) (s : LogFile) :
  from_stdin s = true ->
  0 <= pos (filehandle s) ->
  fast_forward parse_dt start_dt s <> OutOfFuel.
Proof.
  intros Hin Hp. unfold fast_forward.
  unfold bind at 1, get. rewrite Hin.
  unfold bind at 1, get. apply skip_loop_ok; [exact Hp|lia].
Qed.

End Totality.

(** ** Where a located record leaves the stream *)

Section Located.

Variable parse_dt : str -> option datetime.

#[local] Arguments find_loop : simpl never.

(** A record the loop returns is the line it read last, and it has a
    timestamp. *)
Lemma find_loop_post (prev : bool) (fuel : nat) :
  forall (s t : LogFile) (l : LogLine),
    0 <= pos (filehandle s) ->
    find_loop parse_dt fuel prev s = Ok (Some l) t ->
    just_read l t /\ parse_dt (line_str l) <> None.
Proof.
  induction fuel as [|fuel IH]; intros s t l Hp; [discriminate|].
  rewrite find_loop_S. cbv zeta.
  destruct (parse_dt (take_line (rest (filehandle s)))) as [d|] eqn:Ed;
    simpl truthy; cbv iota.
  - intros H; inversion H; subst. simpl. split; [|congruence].
    exists (pos (filehandle s)). simpl. unfold rest. auto.
  - destruct prev; [discriminate|].
    destruct (take_line (rest (filehandle s))) as [|c x] eqn:El;
      [discriminate|].
    apply IH. simpl. pose proof (len_nonneg (c :: x)). lia.
Qed.

Lemma find_curr_line_post (prev : bool) (s t : LogFile) (l : LogLine) :
  seekable (filehandle s) = true ->
  0 <= pos (filehandle s) ->
  _find_curr_line parse_dt prev s = Ok (Some l) t ->
  just_read l t /\ parse_dt (line_str l) <> None.
Proof.
  intros Hsk Hp. rewrite (_find_curr_line_spec parse_dt prev s Hsk Hp).
  destruct (boundary prev (filehandle s)) as [b|] eqn:Hb; [|discriminate].
  cbv zeta. apply find_loop_post. simpl.
  apply (boundary_range prev _ b Hp) in Hb. lia.
Qed.

(** The record the bisection ends with is the line read last. *)
Lemma bisect_post (start_dt : datetime) (fuel : nat) :
  forall (s t : LogFile) (step_size : Z) (ll : option LogLine) (l : LogLine),
    seekable (filehandle s) = true ->
    0 <= pos (filehandle s) ->
    match ll with
    | Some l0 => just_read l0 s /\ parse_dt (line_str l0) <> None
    | None => True
    end ->
    bisect parse_dt fuel start_dt step_size ll s = Ok (Some l) t ->
    just_read l t /\ parse_dt (line_str l) <> None.
Proof.
  induction fuel as [|fuel IH]; intros s t step_size ll l Hsk Hp Hll; simpl.
  - destruct (Z.abs step_size >? 100); [discriminate|].
    unfold ret. intros H; inversion H; subst. exact Hll.
  - destruct (Z.abs step_size >? 100).
    2: { unfold ret. intros H; inversion H; subst. exact Hll. }
    unfold bind at 1, seek. rewrite Hsk. simpl.
    destruct (pos (filehandle s) + ceil_half step_size <? 0) eqn:Hneg;
      [discriminate|].
    apply Z.ltb_ge in Hneg.
    unfold bind at 1.
    destruct (find_curr_line_ok parse_dt false
                (with_fh s (set_pos (filehandle s)
                   (pos (filehandle s) + ceil_half step_size))))
      as [r [t' [H1 [[H2 [H3 H4]] _]]]]; [exact Hsk|simpl; lia|].
    rewrite H1. simpl in H2.
    destruct r as [l'|]; [|discriminate].
    pose proof (find_curr_line_post false
                  (with_fh s (set_pos (filehandle s)
                     (pos (filehandle s) + ceil_half step_size)))
                  t' l' Hsk ltac:(simpl; lia) H1) as Hpost.
    unfold bind at 1, ge_start.
    destruct (datetime_of parse_dt l') as [d|]; [|discriminate].
    unfold ret at 1.
    destruct (dt_geb d start_dt); apply IH; try congruence; assumption.
Qed.

(** No step backwards is taken from a record that is earlier than the
    target. *)
Lemma walk_back_earlier (start_dt : datetime) (fuel : nat) (l : LogLine)
  (d : datetime) (s : LogFile) :
  seekable (filehandle s) = true ->
  parse_dt (line_str l) = Some d ->
  dt_geb d start_dt = false ->
  walk_back parse_dt fuel start_dt (Some l) s = Ok tt s.
Proof.
  intros Hsk Hd Hge. destruct fuel; simpl;
    unfold bind, tell, ge_start, datetime_of, ret; rewrite Hsk; simpl;
    destruct (pos (filehandle s) >=? 2); try reflexivity;
    rewrite Hd, Hge; reflexivity.
Qed.

End Located.

(** ** fast_forward when no record is located *)

(** A file can be checked to have no timestamp by trying every offset. *)
Lemma no_timestamps_check (parse_dt : str -> option datetime) (c : str) :
  forallb (fun q => negb (truthy (parse_dt (take_line (skipn q c)))))
          (seq 0 (S (List.length c))) = true ->
  no_timestamps parse_dt c.
Proof.
  intros H q. rewrite forallb_forall in H.
  assert (Hq : forall q', (q' <= List.length c)%nat ->
                          parse_dt (take_line (skipn q' c)) = None).
  { intros q' Hle. specialize (H q').
    rewrite in_seq in H. specialize (H ltac:(lia)).
    destruct (parse_dt (take_line (skipn q' c))); [discriminate|reflexivity]. }
  destruct (Nat.le_gt_cases q (List.length c)) as [Hle|Hgt].
  - apply Hq. exact Hle.
  - rewrite (skipn_all2 c) by lia.
    rewrite <- (skipn_all2 c (n := List.length c)) by lia.
    apply Hq. lia.
Qed.

(** When [filesize] has returned and the first record the bisection
    locates is absent, [fast_forward] returns at once, with the object
    exactly as that first round left it: no backward correction takes
    place.  This is so on a new [LogFile] over a seekable file in which no
    text read from any byte offset has a timestamp, where [fast_forward]
    returns and leaves the object as the bisection loop left it; and on an
    empty file, where it returns with the stream at offset 0 without a
    single bisection round. *)
Theorem fast_forward_without_record :
  (forall (parse_dt : str -> option datetime) (start_dt : datetime)
          (s s1 t : LogFile) (sz : Z),
     from_stdin s = false ->
     filesize parse_dt s = Ok (Some sz) s1 ->
     100 < Z.abs sz ->
     (seek (ceil_half sz) 1;; _find_curr_line parse_dt false) s1 = Ok None t ->
     fast_forward parse_dt start_dt s = Ok tt t) /\
  (forall (parse_dt : str -> option datetime) (start_dt : datetime)
          (fh : FileHandle),
     seekable fh = true ->
     str_eqb (name fh) (lit "<stdin>") = false ->
     no_timestamps parse_dt (content fh) ->
     exists s1 t,
       filesize parse_dt (__init__ fh) = Ok (Some (size fh)) s1 /\
       bisect parse_dt (Z.to_nat (Z.abs (size fh))) start_dt (size fh) None s1
       = Ok None t /\
       fast_forward parse_dt start_dt (__init__ fh) = Ok tt t) /\
  (forall (parse_dt : str -> option datetime) (start_dt : datetime)
          (fh : FileHandle),
     seekable fh = true ->
     str_eqb (name fh) (lit "<stdin>") = false ->
     content fh = [] ->
     exists s1,
       filesize parse_dt (__init__ fh) = Ok (Some 0) s1 /\
       fast_forward parse_dt start_dt (__init__ fh) = Ok tt s1 /\
       pos (filehandle s1) = 0).
Proof.
  split; [|split].
  - intros parse_dt start_dt s s1 t sz Hin Hfs Hgt Hloc.
    apply (fast_forward_no_record parse_dt start_dt s s1 t sz Hin Hfs).
    apply bisect_first_absent; assumption.
  - intros parse_dt start_dt fh Hsk Hnm Hno.
    destruct (filesize_fresh_no_timestamps parse_dt fh Hsk Hnm Hno)
      as [s1 Hfs].
    destruct (filesize_fresh parse_dt fh _ s1 Hsk Hnm Hfs)
      as [_ [Hp [Hc Hsk1]]].
    assert (Hin : from_stdin (__init__ fh) = false) by exact Hnm.
    assert (Hsz : 0 <= size fh) by apply len_nonneg.
    destruct (Z_le_gt_dec (Z.abs (size fh)) 100) as [Hle|Hgt].
    + exists s1, s1. split; [exact Hfs|].
      assert (Hb : bisect parse_dt (Z.to_nat (Z.abs (size fh))) start_dt
                     (size fh) None s1 = Ok None s1)
        by (apply bisect_converged; exact Hle).
      split; [exact Hb|].
      apply (fast_forward_no_record parse_dt start_dt _ s1 s1 _ Hin Hfs Hb).
    + assert (Hseek : seek (ceil_half (size fh)) 1 s1
                      = Ok tt (with_fh s1 (set_pos (filehandle s1)
                                             (ceil_half (size fh))))).
      { unfold seek. rewrite Hsk1, Hp. simpl.
        assert (Hc0 : 0 <= ceil_half (size fh))
          by (unfold ceil_half; apply Z.div_pos; lia).
        replace (ceil_half (size fh) <? 0) with false
          by (symmetry; apply Z.ltb_ge; lia).
        reflexivity. }
      destruct (find_curr_line_none parse_dt
                  (with_fh s1 (set_pos (filehandle s1) (ceil_half (size fh)))))
        as [t Ht].
      * simpl. exact Hsk1.
      * simpl. unfold ceil_half; apply Z.div_pos; lia.
      * simpl. rewrite Hc. exact Hno.
      * exists s1, t. split; [exact Hfs|].
        assert (Hb : bisect parse_dt (Z.to_nat (Z.abs (size fh))) start_dt
                       (size fh) None s1 = Ok None t).
        { apply bisect_first_absent; [lia|].
          unfold bind. rewrite Hseek. exact Ht. }
        split; [exact Hb|].
        apply (fast_forward_no_record parse_dt start_dt _ s1 t _ Hin Hfs Hb).
  - intros parse_dt start_dt fh Hsk Hnm Hc.
    assert (Hin : from_stdin (__init__ fh) = false) by exact Hnm.
    assert (Hfs : exists s1,
               filesize parse_dt (__init__ fh) = Ok (Some 0) s1).
    { unfold filesize.
      unfold bind at 1, get. rewrite Hin.
      unfold bind at 1, get. simpl _filesize. simpl.
      unfold bind at 1. unfold bind at 1.
      rewrite _calculate_bounds_spec by (simpl; assumption).
      unfold raw_bounds, raw_start, raw_end, tail_window, rest, size. simpl.
      rewrite Hc, !skipn_nil. simpl.
      unfold bind, rollover, seek, ret, get. simpl. rewrite Hsk. simpl.
      eauto. }
    destruct Hfs as [s1 Hfs]. exists s1.
    destruct (filesize_fresh parse_dt fh _ s1 Hsk Hnm Hfs) as [_ [Hp _]].
    split; [exact Hfs|]. split; [|exact Hp].
    apply (fast_forward_no_record parse_dt start_dt _ s1 s1 0 Hin Hfs).
    apply bisect_converged. simpl. lia.
Qed.

Lemma fast_forward_without_record_witness :
  exists s1 t,
    filesize scenario_parse (__init__ plain_file)
    = Ok (Some (size plain_file)) s1 /\
    bisect scenario_parse (Z.to_nat (Z.abs (size plain_file)))
           (mkdt 2021 3 1 0 0 0 0) (size plain_file) None s1 = Ok None t /\
    fast_forward scenario_parse (mkdt 2021 3 1 0 0 0 0) (__init__ plain_file)
    = Ok tt t.
Proof.
  apply (proj1 (proj2 fast_forward_without_record) scenario_parse
           (mkdt 2021 3 1 0 0 0 0) plain_file).
  - reflexivity.
  - reflexivity.
  - apply no_timestamps_check. vm_compute. reflexivity.
Defined.

(** ** fast_forward when only a fragment of a line has a timestamp *)

Section EndOnly.

Variable parse_dt : str -> option datetime.

(** When exactly one of the two loops of the bounds scan finds a datetime
    and no bound was stored before, the rollover test compares a datetime
    with [None]: the scan raises [TypeError], with the stream at the end of
    the file. *)
Lemma bounds_one_sided (s : LogFile) :
  from_stdin s = false ->
  seekable (filehandle s) = true ->
  _start s = None -> _end s = None ->
  (raw_start parse_dt s = None /\ raw_end parse_dt s <> None) \/
  (raw_start parse_dt s <> None /\ raw_end parse_dt s = None) ->
  _calculate_bounds parse_dt s = Raise TypeError (raw_bounds parse_dt s).
Proof.
  intros Hin Hsk Hst Hen H.
  rewrite (_calculate_bounds_spec parse_dt s Hin Hsk).
  unfold bind at 1, rollover, raw_bounds. simpl. rewrite Hst, Hen.
  destruct (raw_start parse_dt s), (raw_end parse_dt s); simpl;
    try reflexivity; destruct H as [[H1 H2]|[H1 H2]]; congruence.
Qed.

(** [filesize] and [fast_forward] then raise it too, unless a non-zero size
    was stored before. *)
Lemma fast_forward_one_sided (s : LogFile) :
  from_stdin s = false ->
  seekable (filehandle s) = true ->
  _start s = None -> _end s = None ->
  truthy_int (_filesize s) = false ->
  (raw_start parse_dt s = None /\ raw_end parse_dt s <> None) \/
  (raw_start parse_dt s <> None /\ raw_end parse_dt s = None) ->
  filesize parse_dt s = Raise TypeError (raw_bounds parse_dt s) /\
  forall start_dt : datetime,
    fast_forward parse_dt start_dt s
    = Raise TypeError (raw_bounds parse_dt s).
Proof.
  intros Hin Hsk Hst Hen Hf H.
  pose proof (bounds_one_sided s Hin Hsk Hst Hen H) as Hb.
  assert (Hfs : filesize parse_dt s = Raise TypeError (raw_bounds parse_dt s)).
  { unfold filesize, bind, get. rewrite Hin, Hf. simpl. rewrite Hb.
    reflexivity. }
  split; [exact Hfs|].
  intros start_dt. unfold fast_forward. unfold bind at 1, get.
  rewrite Hin. unfold bind at 1. rewrite Hfs. reflexivity.
Qed.

End EndOnly.

(** C8 (the code departs from the claim): [fragment_log] is a seekable file
    in which no line has a timestamp, so the claim makes [fast_forward] a
    no-op on it.  The window of the last 15000 bytes starts inside the
    first line, at a fragment that does have a timestamp: the bounds scan
    stores an end and no start, the rollover test compares a datetime with
    [None], and [filesize], hence [fast_forward] to any target, raises
    [TypeError] before a single bisection round, with the stream left at
    the end of the file. *)
Theorem fast_forward_fragment_raises :
  let s := fragment_log in
  size (filehandle s) = 15001 /\
  forallb (fun l => negb (truthy (scenario_parse l)))
          (lines (content (filehandle s))) = true /\
  raw_start scenario_parse s = None /\
  raw_end scenario_parse s = Some (mkdt 2021 1 1 0 0 0 0) /\
  raises (filesize scenario_parse s) TypeError /\
  forall start_dt : datetime,
    fast_forward scenario_parse start_dt s
    = Raise TypeError (raw_bounds scenario_parse s) /\
    pos (filehandle (raw_bounds scenario_parse s)) = 15001.
Proof.
  intros s.
  assert (Hrs : raw_start scenario_parse s = None)
    by (vm_compute; reflexivity).
  assert (Hre : raw_end scenario_parse s = Some (mkdt 2021 1 1 0 0 0 0))
    by (vm_compute; reflexivity).
  assert (Hin : from_stdin s = false) by (vm_compute; reflexivity).
  assert (Hsk : seekable (filehandle s) = true) by reflexivity.
  assert (Hst : _start s = None) by reflexivity.
  assert (Hen : _end s = None) by reflexivity.
  assert (Hf : truthy_int (_filesize s) = false) by reflexivity.
  assert (Hone : (raw_start scenario_parse s = None /\
                  raw_end scenario_parse s <> None) \/
                 (raw_start scenario_parse s <> None /\
                  raw_end scenario_parse s = None))
    by (left; split; [exact Hrs|rewrite Hre; discriminate]).
  destruct (fast_forward_one_sided scenario_parse s Hin Hsk Hst Hen Hf Hone)
    as [Hfs Hff].
  split; [vm_compute; reflexivity|].
  split; [vm_compute; reflexivity|].
  split; [exact Hrs|]. split; [exact Hre|].
  split; [eexists; exact Hfs|].
  intros start_dt. split; [apply Hff|vm_compute; reflexivity].
Qed.

(** ** Where fast_forward leaves the stream *)

(** C1, counterexample: the file has 48 bytes, the bisection loop runs only
    while the step exceeds 100 bytes, so [fast_forward] to the first of
    March leaves the stream at offset 0, and the next line read is the one
    of January. *)
Lemma fast_forward_small_not_positioned :
  ~ fast_forward_correct scenario_parse (mkdt 2021 3 1 0 0 0 0) two_line_log.
Proof.
  intros H.
  pose (t := state_after (fast_forward scenario_parse (mkdt 2021 3 1 0 0 0 0)
                            two_line_log) two_line_log).
  assert (Hex : exists l d,
             In l (lines (content (filehandle two_line_log))) /\
             scenario_parse l = Some d /\
             dt_geb d (mkdt 2021 3 1 0 0 0 0) = true).
  { exists (lit (text ["[2021-06-01T00:00:00] b"]%string)).
    exists (mkdt 2021 6 1 0 0 0 0).
    split; [vm_compute; auto|]. split; vm_compute; reflexivity. }
  assert (Hff : fast_forward scenario_parse (mkdt 2021 3 1 0 0 0 0)
                  two_line_log = Ok tt t) by (vm_compute; reflexivity).
  destruct (H Hex t Hff) as [[d [Hd Hge]] _].
  vm_compute in Hd. inversion Hd; subst d. vm_compute in Hge. discriminate.
Qed.

(** On the three-line file of 150 bytes the bisection does run, and the
    claim fails in another way: the stream ends two bytes before the end of
    the line of June, the first one at or after the target, so the next
    read yields the tail of that line and the line itself is lost. *)
Lemma fast_forward_skips_first_match :
  exists t,
    fast_forward scenario_parse (mkdt 2021 3 1 0 0 0 0) three_line_log
    = Ok tt t /\
    pos (filehandle t) = 98 /\
    take_line (rest (filehandle t)) = lit (text ["b"]%string).
Proof. eexists. repeat split; vm_compute; reflexivity. Qed.

(** C1, amended: on a new [LogFile] over a seekable file, for every
    target, (1) when the file has at most 100 bytes [fast_forward] takes no
    bisection step: it returns exactly when reading [filesize] returns, with
    the object that read leaves, so the stream is at offset 0 of the
    unchanged file, no line lies before the position and the next line read
    is the first line of the file, whatever its timestamp; (2) when the
    bisection ends on a located record whose timestamp is earlier than the
    target, [fast_forward] returns without a step backwards and the stream
    stands right after that record's line, so the line immediately before
    the position has a timestamp earlier than the target. *)
Theorem fast_forward_positions :
  forall (parse_dt : str -> option datetime) (start_dt : datetime)
         (fh : FileHandle),
    seekable fh = true ->
    str_eqb (name fh) (lit "<stdin>") = false ->
    (size fh <= 100 ->
     forall t : LogFile,
       (fast_forward parse_dt start_dt (__init__ fh) = Ok tt t <->
        filesize parse_dt (__init__ fh) = Ok (Some (size fh)) t) /\
       (fast_forward parse_dt start_dt (__init__ fh) = Ok tt t ->
        pos (filehandle t) = 0 /\
        content (filehandle t) = content fh /\
        lines (firstn (Z.to_nat (pos (filehandle t)))
                      (content (filehandle t))) = [] /\
        take_line (rest (filehandle t)) = take_line (content fh))) /\
    (forall (s1 t : LogFile) (l : LogLine) (d : datetime),
       filesize parse_dt (__init__ fh) = Ok (Some (size fh)) s1 ->
       bisect parse_dt (Z.to_nat (Z.abs (size fh))) start_dt (size fh) None s1
       = Ok (Some l) t ->
       parse_dt (line_str l) = Some d ->
       dt_ltb d start_dt = true ->
       fast_forward parse_dt start_dt (__init__ fh) = Ok tt t /\
       just_read l t).
Proof.
  intros parse_dt start_dt fh Hsk Hnm.
  assert (Hin : from_stdin (__init__ fh) = false) by exact Hnm.
  split.
  - intros Hsz t.
    assert (Habs : Z.abs (size fh) <= 100)
      by (pose proof (len_nonneg (content fh)); unfold size in *; lia).
    assert (Hiff : fast_forward parse_dt start_dt (__init__ fh) = Ok tt t <->
                   filesize parse_dt (__init__ fh) = Ok (Some (size fh)) t).
    { split.
      - unfold fast_forward. unfold bind at 1, get. rewrite Hin.
        unfold bind at 1.
        destruct (filesize parse_dt (__init__ fh)) as [v s1|e s1|] eqn:Hfs;
          try discriminate.
        destruct (filesize_fresh parse_dt fh v s1 Hsk Hnm Hfs) as [Hv _].
        subst v. unfold bind at 1.
        rewrite (bisect_converged parse_dt _ start_dt (size fh) None s1 Habs).
        unfold ret. intros H; inversion H; subst. reflexivity.
      - intros Hfs.
        apply (fast_forward_no_record parse_dt start_dt _ t t _ Hin Hfs).
        apply bisect_converged. exact Habs. }
    split; [exact Hiff|].
    intros Hff. apply Hiff in Hff.
    destruct (filesize_fresh parse_dt fh _ t Hsk Hnm Hff) as [_ [Hp [Hc _]]].
    split; [exact Hp|]. split; [exact Hc|].
    unfold rest. rewrite Hp, Hc. simpl. auto.
  - intros s1 t l d Hfs Hb Hd Hlt.
    destruct (filesize_fresh parse_dt fh _ s1 Hsk Hnm Hfs)
      as [_ [Hp [Hc Hsk1]]].
    pose proof (bisect_ok parse_dt start_dt (Z.to_nat (Z.abs (size fh))) s1
                  (size fh) None Hsk1 ltac:(lia) ltac:(lia)) as Hok.
    rewrite Hb in Hok. destruct Hok as [Hs1 [Hs2 Hs3]].
    pose proof (bisect_post parse_dt start_dt _ s1 t (size fh) None l Hsk1
                  ltac:(lia) I Hb) as [Hread _].
    split; [|exact Hread].
    unfold fast_forward. unfold bind at 1, get. rewrite Hin.
    unfold bind at 1. rewrite Hfs. unfold bind at 1. rewrite Hb.
    unfold bind, get.
    apply (walk_back_earlier parse_dt start_dt _ l d t); [congruence|exact Hd|].
    unfold dt_geb. rewrite Hlt. reflexivity.
Qed.

Lemma fast_forward_positions_witness :
  let target := mkdt 2021 7 1 0 0 0 0 in
  let l := mkLogLine
    (lit (text ["[2021-06-01T00:00:00] bbbbbbbbbbbbbbbbbbbbbbbbbbb"]%string)) in
  let t := state_after (fast_forward scenario_parse target three_line_log)
                       three_line_log in
  fast_forward scenario_parse target three_line_log = Ok tt t /\
  just_read l t.
Proof.
  intros target l t.
  apply (proj2 (fast_forward_positions scenario_parse target
                  (filehandle three_line_log) eq_refl eq_refl)
           (state_after (filesize scenario_parse three_line_log)
                        three_line_log)
           t l (mkdt 2021 6 1 0 0 0 0));
    vm_compute; reflexivity.
Defined.
